(** * The filter-expression rules of bk-cmdb (package [filter], rule.go)

    A shallow embedding of [AtomRule] and [CombinedRule]: their field
    enumeration ([RuleFields]), validation ([Validate]), compilation to a
    Mongo condition ([ToMgo]) and the nil-receiver guard of [MarshalBSON],
    followed by the properties the specification states about them. *)

From Stdlib Require Import ZArith NArith Ascii String Strings.Byte.
From Stdlib Require Import DecimalString DecimalPos.
From stdpp Require Import base gmap strings list.

(** ** Results of Go calls *)

(** A Go [error] value: [None] is [nil], [Some msg] carries [Error()]. *)
Definition error : Type := option string.

(** What a call that returns [(A, error)] (or just [error], with
    [A := unit]) can do: return normally, return a non-nil error, or
    panic at run time. *)
Inductive outcome (A : Type) : Type :=
| Ok (a : A)
| Err (msg : string)
| Panic.
Arguments Ok {A} a.
Arguments Err {A} msg.
Arguments Panic {A}.

#[global] Instance outcome_ret : MRet outcome := fun A a => Ok a.
#[global] Instance outcome_bind : MBind outcome := fun A B k x =>
  match x with
  | Ok a => k a
  | Err msg => Err msg
  | Panic => Panic
  end.

(** [if err := e; err != nil { return err }]: used as [returnIf e ;; k]. *)
Definition returnIf (e : error) : outcome unit :=
  match e with
  | Some msg => Err msg
  | None => Ok tt
  end.

(** ** Formatting and parsing of integers *)

(** The [%d] verb of [fmt]. *)
Definition fmt_d (z : Z) : string := NilZero.string_of_int (Z.to_int z).

(** [int(u)] for a [uint] [u] on a 64-bit platform. *)
Definition int_of_uint (u : N) : Z :=
  let z := (Z.of_N u mod 2 ^ 64)%Z in
  if (z <? 2 ^ 63)%Z then z else (z - 2 ^ 64)%Z.

(** The two errors of [strconv]: [ErrSyntax] and [ErrRange]. *)
Inductive NumErr : Type := ErrSyntax | ErrRange.

Definition digitOf (c : ascii) : option Z :=
  let n := Z.of_N (N_of_ascii c) in
  if ((48 <=? n) && (n <=? 57))%Z then Some (n - 48)%Z else None.

(** The digit loop of [strconv.ParseUint] in base 10 and 64 bits: a byte
    that is no digit is a syntax error, a value beyond [uint64] a range
    error, whichever the scan meets first. *)
Fixpoint parseDigits (s : string) (n : Z) : Z + NumErr :=
  match s with
  | EmptyString => inl n
  | String c rest =>
      match digitOf c with
      | None => inr ErrSyntax
      | Some d =>
          if (1844674407370955162 <=? n)%Z then inr ErrRange
          else
            let n1 := (n * 10 + d)%Z in
            if (2 ^ 64 - 1 <? n1)%Z then inr ErrRange else parseDigits rest n1
      end
  end.

(** [strconv.Atoi] with a 64-bit [int]: an optional sign, then at least
    one decimal digit, and the value within [int64]. *)
Definition Atoi (s : string) : Z + NumErr :=
  match s with
  | EmptyString => inr ErrSyntax
  | String c rest =>
      let neg := bool_decide (c = "-"%char) in
      let digits := if neg || bool_decide (c = "+"%char) then rest else s in
      match digits with
      | EmptyString => inr ErrSyntax
      | _ =>
          match parseDigits digits 0 with
          | inr e => inr e
          | inl un =>
              if negb neg && (2 ^ 63 <=? un)%Z then inr ErrRange
              else if neg && (2 ^ 63 <? un)%Z then inr ErrRange
              else inl (if neg then (- un)%Z else un)
          end
      end
  end.

(** ** Data model *)

(** Modelled from the spec: [OpFactory], [LogicOperator] and
    [enumor.ColumnType] are declared outside rule.go. The spec calls them
    tags; rule.go prints them with [%s] and converts the names of
    operators with [OpFactory(...)], so they are strings. *)
Definition OpFactory : Type := string.
Definition LogicOperator : Type := string.
Definition ColumnType : Type := string.

(** [RuleFactory] is implemented by [*AtomRule] and [*CombinedRule]; the
    [Value] of an [AtomRule] is an [interface{}], which may again hold a
    rule; a nil interface value is [VNil]. The trees of this type are
    those without a nil rule: no nil entry in a [Rules] slice and no nil
    [*AtomRule] or [*CombinedRule] behind a [RuleFactory]. On a nil rule
    [RuleFields], [Validate] and [ToMgo] dereference nil and panic (a
    decoding that failed leaves such entries, see [CombinedRuleSlots]);
    what is stated of a tree below is stated of the trees without one. *)
#[warnings="-register-all"] Inductive AtomRule : Type :=
| mkAtomRule (field : string) (operator : OpFactory) (value : AnyValue)
with CombinedRule : Type :=
| mkCombinedRule (condition : LogicOperator) (rules : list RuleFactory)
with RuleFactory : Type :=
| RAtom (ar : AtomRule)
| RCombined (cr : CombinedRule)
with AnyValue : Type :=
| VNil
| VString (s : string)
| VNumber (n : Z)
| VBool (b : bool)
| VSlice (elems : list AnyValue)
| VMap (entries : list (string * AnyValue))
| VRule (sub : RuleFactory).

Definition Field (ar : AtomRule) : string :=
  match ar with mkAtomRule f _ _ => f end.
Definition Operator (ar : AtomRule) : OpFactory :=
  match ar with mkAtomRule _ o _ => o end.
Definition Value (ar : AtomRule) : AnyValue :=
  match ar with mkAtomRule _ _ v => v end.
Definition Condition (cr : CombinedRule) : LogicOperator :=
  match cr with mkCombinedRule c _ => c end.
Definition Rules (cr : CombinedRule) : list RuleFactory :=
  match cr with mkCombinedRule _ rs => rs end.

(** [RuleType] and [WithType]. *)
Inductive RuleType : Type := UnknownType | AtomType | CombinedType.

Definition WithType (r : RuleFactory) : RuleType :=
  match r with
  | RAtom _ => AtomType
  | RCombined _ => CombinedType
  end.

(** The number of rule levels of a tree: one for an atom rule, one more
    than its deepest rule for a combined rule. *)
Fixpoint CombinedRule_levels (cr : CombinedRule) : nat :=
  match cr with
  | mkCombinedRule _ rules =>
      S (foldr (fun rule deepest => Nat.max (RuleFactory_levels rule) deepest)
           0 rules)
  end
with RuleFactory_levels (r : RuleFactory) : nat :=
  match r with
  | RAtom _ => 1
  | RCombined cr => CombinedRule_levels cr
  end.

(** Induction on a rule tree along the rules of its combined rules. *)
Section RuleInduction.
Variable P : RuleFactory -> Prop.
Hypothesis atomCase : forall ar, P (RAtom ar).
Hypothesis combinedCase : forall condition rules,
  Forall P rules -> P (RCombined (mkCombinedRule condition rules)).

Fixpoint RuleFactory_rules_ind (r : RuleFactory) : P r :=
  match r with
  | RAtom ar => atomCase ar
  | RCombined (mkCombinedRule condition rules) =>
      combinedCase condition rules
        ((fix each (l : list RuleFactory) : Forall P l :=
            match l with
            | [] => @List.Forall_nil _ P
            | rule :: rest =>
                @List.Forall_cons _ P rule rest
                  (RuleFactory_rules_ind rule) (each rest)
            end) rules)
  end.
End RuleInduction.

(** Modelled from the spec: [ExprOption], the validation policy, is
    declared outside rule.go. It has the five fields the spec lists and
    rule.go reads; rule.go converts the rule limit with [int(...)], so
    the limits are unsigned. *)
Record ExprOption : Type := mkExprOption {
  RuleFields : gmap string ColumnType;
  MaxInLimit : N;
  MaxNotInLimit : N;
  MaxRulesLimit : N;
  MaxRulesDepth : N
}.

(** [RuleOption], the path context of a compilation. *)
Record RuleOption : Type := mkRuleOption {
  Parent : string;
  ParentType : ColumnType
}.

(** A [map[string]interface{}], as [ToMgo] returns it. *)
Definition MgoMap : Type := list (string * AnyValue).

(** ** What rule.go imports

    The operator catalog ([OpFactory.Validate], and [ValidateValue] and
    [ToMgo] of [OpFactory.Operator()]), the logic operators, the column
    types of [enumor], the constants of [common] and the helpers of
    [util] are declared outside rule.go; [bson.Marshal] is the driver's
    and [strconv.Quote] the standard library's. They are taken as
    parameters ([bson.Marshal] for a rule and for a broker; what it makes
    of a nil map is written out below); those that return an [error] are
    taken not to panic. *)

(** The values handed to [bson.Marshal] by the two [MarshalBSON] of a
    rule that is not nil. *)
Inductive BsonSource : Type :=
| BsonAtomRuleCopier (field : string) (operator : OpFactory) (value : AnyValue)
| BsonCombinedRuleBroker (condition : LogicOperator) (rules : list (list byte))
| BsonRuleFactory (r : RuleFactory).

Class Collaborators : Type := {
  FilterObject : OpFactory;
  FilterArray : OpFactory;
  FilterArrayElement : string;
  DefaultMaxRuleLimit : N;
  And : LogicOperator;
  Or : LogicOperator;
  BKDBOR : string;
  BKDBAND : string;
  enumor_String : ColumnType;
  enumor_Numeric : ColumnType;
  enumor_Boolean : ColumnType;
  enumor_Time : ColumnType;
  enumor_Object : ColumnType;
  enumor_Array : ColumnType;
  LogicOperator_Validate : LogicOperator -> error;
  OpFactory_Validate : OpFactory -> error;
  Operator_ValidateValue : OpFactory -> AnyValue -> option ExprOption -> error;
  Operator_ToMgo : OpFactory -> string -> AnyValue -> outcome MgoMap;
  util_IsNumeric : AnyValue -> bool;
  util_ValidateDatetimeType : AnyValue -> error;
  strconv_Quote : string -> string;
  bson_Marshal : BsonSource -> outcome (list byte)
}.

(** ** The driver on a nil map *)

(** The four bytes of an [int32], the lowest first. *)
Definition int32le (n : Z) : list byte :=
  (fun k => default x00 (Byte.of_N (Z.to_N ((n / 2 ^ (8 * k)) mod 256)))) <$>
  [0; 1; 2; 3]%Z.

(** A BSON document: its length in bytes as an [int32], its elements,
    and a zero byte. *)
Definition bsonDocument (elements : list byte) : list byte :=
  int32le (Z.of_nat (length elements) + 5) ++ elements ++ [x00].


(** [bson.Marshal(map[string]interface{}(nil))]. The map codec of the
    driver first offers a nil map to the writer as a null; the writer
    takes a null for an element or an array value only, not for what
    [Marshal] is called on, and the codec goes on to write a document,
    which for a nil map has no element. *)
Definition bson_Marshal_nilMap : outcome (list byte) := Ok (bsonDocument []).

Section Rules.
Context `{Collaborators}.

(** ** RuleFields *)

Definition isFilterOperator (op : OpFactory) : bool :=
  bool_decide (op = FilterObject) || bool_decide (op = FilterArray).

Fixpoint AtomRule_RuleFields (ar : AtomRule) : list string :=
  match ar with
  | mkAtomRule field operator value =>
      if isFilterOperator operator then
        match value with
        | VRule subRule =>
            let subFields := RuleFactory_RuleFields subRule in
            (fun f => field +:+ "." +:+ f) <$> subFields
        | _ => [field]
        end
      else [field]
  end
with CombinedRule_RuleFields (cr : CombinedRule) : list string :=
  match cr with
  | mkCombinedRule _ rules =>
      foldl (fun fields rule => (fields ++ RuleFactory_RuleFields rule)%list)
        [] rules
  end
with RuleFactory_RuleFields (r : RuleFactory) : list string :=
  match r with
  | RAtom ar => AtomRule_RuleFields ar
  | RCombined cr => CombinedRule_RuleFields cr
  end.

(** The [Error] text of the [strconv.NumError] of an [Atoi] failure on [s]. *)
Definition NumError_Error (s : string) (e : NumErr) : string :=
  "strconv.Atoi: parsing " +:+ strconv_Quote s +:+ ": " +:+
  match e with
  | ErrSyntax => "invalid syntax"
  | ErrRange => "value out of range"
  end.

(** ** Validate *)

(** [validateFieldValue], with [validateSliceElements] as its inner loop.
    [reflect.TypeOf(v)] is nil for a nil [v], and [Kind()] on it panics. *)
Fixpoint validateFieldValue (v : AnyValue) (typ : ColumnType) : outcome unit :=
  match v with
  | VNil => Panic
  | VSlice elems =>
      (fix validateSliceElements (l : list AnyValue) : outcome unit :=
         match l with
         | [] => Ok tt
         | e :: l' => validateFieldValue e typ ;; validateSliceElements l'
         end) elems
  | _ =>
      if bool_decide (typ = enumor_String) then
        match v with
        | VString _ => Ok tt
        | _ => Err "value should be a string"
        end
      else if bool_decide (typ = enumor_Numeric) then
        if util_IsNumeric v then Ok tt else Err "value should be a numeric"
      else if bool_decide (typ = enumor_Boolean) then
        match v with
        | VBool _ => Ok tt
        | _ => Err "value should be a boolean"
        end
      else if bool_decide (typ = enumor_Time) then
        returnIf (util_ValidateDatetimeType v)
      else Err ("unsupported value type format: " +:+ typ)
  end.

Definition isNil (v : AnyValue) : bool :=
  match v with VNil => true | _ => false end.

Definition AtomRule_Validate (ar : AtomRule) (opt : option ExprOption)
  : outcome unit :=
  if bool_decide (Field ar = "") then Err "field is empty" else
  returnIf (OpFactory_Validate (Operator ar)) ;;
  if isNil (Value ar) then Err "rule value can not be nil" else
  match opt with
  | Some o =>
      if bool_decide (0 < size (RuleFields o)) then
        match RuleFields o !! Field ar with
        | None =>
            Err ("rule field: " +:+ Field ar +:+
                 " is not exist in the expr option")
        | Some typ =>
            match validateFieldValue (Value ar) typ with
            | Err err => Err ("invalid " +:+ Field ar +:+ "'s value, " +:+ err)
            | r => r
            end
        end
      else Ok tt
  | None => Ok tt
  end ;;
  match Operator_ValidateValue (Operator ar) (Value ar) opt with
  | Some err => Err (Field ar +:+ " validate failed, " +:+ err)
  | None => Ok tt
  end.

(** The rule limit in force: [opt.MaxRulesLimit] when positive, else
    [DefaultMaxRuleLimit]. *)
Definition maxRulesOf (opt : option ExprOption) : N :=
  match opt with
  | Some o => if (0 <? MaxRulesLimit o)%N then MaxRulesLimit o
              else DefaultMaxRuleLimit
  | None => DefaultMaxRuleLimit
  end.

(** The check of the collected fields against [opt.RuleFields]. Go ranges
    over a map in an unspecified order; [elements] fixes one. *)
Definition checkRuleFields (fieldsReminder : gset string)
    (opt : option ExprOption) : outcome unit :=
  match opt with
  | Some o =>
      if bool_decide (0 < size (RuleFields o)) then
        let reminder : gset string := dom (RuleFields o) in
        match list_find (fun one => one ∉ reminder) (elements fieldsReminder) with
        | Some (_, one) =>
            Err ("expression rules field(" +:+ one +:+
                 ") should not exist(not supported)")
        | None => Ok tt
        end
      else Ok tt
  | None => Ok tt
  end.

(** The depth check and the options the children are validated with. *)
Definition childOptOf (opt : option ExprOption) : outcome (option ExprOption) :=
  match opt with
  | Some o =>
      if (0 <? MaxRulesDepth o)%N then
        if (MaxRulesDepth o =? 1)%N then
          Err "expression rules depth exceeds maximum"
        else
          Ok (Some {| RuleFields := RuleFields o;
                      MaxInLimit := MaxInLimit o;
                      MaxNotInLimit := MaxNotInLimit o;
                      MaxRulesLimit := MaxRulesLimit o;
                      MaxRulesDepth := MaxRulesDepth o - 1 |})
      else Ok None
  | None => Ok None
  end.

(** [o] with its [MaxRulesDepth] set to [depth]. *)
Definition withDepth (o : ExprOption) (depth : N) : ExprOption :=
  {| RuleFields := RuleFields o;
     MaxInLimit := MaxInLimit o;
     MaxNotInLimit := MaxNotInLimit o;
     MaxRulesLimit := MaxRulesLimit o;
     MaxRulesDepth := depth |}.

Section RangeRules.
Variable validate : RuleFactory -> outcome unit.

(** [for _, one := range cr.Rules], returning the first error. *)
Fixpoint validateRules (rules : list RuleFactory) : outcome unit :=
  match rules with
  | [] => Ok tt
  | one :: rest => validate one ;; validateRules rest
  end.
End RangeRules.

(** The checks [CombinedRule.Validate] makes on the rule itself, before
    it looks at the depth: the condition, the number of rules and the
    fields the rule refers to. *)
Definition CombinedRule_checkRules (cr : CombinedRule) (opt : option ExprOption)
  : outcome unit :=
  returnIf (LogicOperator_Validate (Condition cr)) ;;
  if bool_decide (length (Rules cr) = 0) then
    Err "combined rules shouldn't be empty"
  else
  let maxRules := maxRulesOf opt in
  if bool_decide (int_of_uint maxRules < Z.of_nat (length (Rules cr)))%Z then
    Err ("rules elements number is overhead, it at most have " +:+
         fmt_d (Z.of_N maxRules) +:+ " rules")
  else
  let fieldsReminder : gset string :=
    list_to_set (CombinedRule_RuleFields cr) in
  if bool_decide (size fieldsReminder = 0) then
    Err "invalid expression, no field is found to query"
  else checkRuleFields fieldsReminder opt.

Fixpoint CombinedRule_Validate (cr : CombinedRule) (opt : option ExprOption)
    {struct cr} : outcome unit :=
  match cr with
  | mkCombinedRule _ rules =>
      CombinedRule_checkRules cr opt ;;
      childOpt ← childOptOf opt;
      validateRules (fun one => RuleFactory_Validate one childOpt) rules
  end
with RuleFactory_Validate (r : RuleFactory) (opt : option ExprOption)
    {struct r} : outcome unit :=
  match r with
  | RAtom ar => AtomRule_Validate ar opt
  | RCombined cr => CombinedRule_Validate cr opt
  end.

(** ** ToMgo *)

(** [opts ...*RuleOption]: the context in force is [opts[0]], when there
    is one and it is not nil. *)
Definition AtomRule_ToMgo (ar : AtomRule) (opts : list (option RuleOption))
  : outcome MgoMap :=
  match opts with
  | Some opt :: _ =>
      if bool_decide (Parent opt = "") then Err "parent is empty"
      else if bool_decide (ParentType opt = enumor_Object) then
        Operator_ToMgo (Operator ar) (Parent opt +:+ "." +:+ Field ar) (Value ar)
      else if bool_decide (ParentType opt = enumor_Array) then
        if bool_decide (Field ar = FilterArrayElement) then
          Operator_ToMgo (Operator ar) (Parent opt) (Value ar)
        else
          match Atoi (Field ar) with
          | inr err =>
              Err ("parse filter array index " +:+ Field ar +:+
                   " failed, err: " +:+ NumError_Error (Field ar) err)
          | inl index =>
              if (index <=? 0)%Z then
                Err ("filter array index " +:+ fmt_d index +:+ " is invalid")
              else
                Operator_ToMgo (Operator ar)
                  (Parent opt +:+ "." +:+ Field ar) (Value ar)
          end
      else Err ("parent type " +:+ ParentType opt +:+ " is invalid")
  | _ => Operator_ToMgo (Operator ar) (Field ar) (Value ar)
  end.

(** The error [CombinedRule.ToMgo] returns for a failure of [rules[idx]]. *)
Definition invalidRuleAt (idx : Z) (err : string) : string :=
  "rules[" +:+ fmt_d idx +:+ "] is invalid, err: " +:+ err.

Section RangeToMgo.
Variable toMgo : RuleFactory -> outcome MgoMap.

(** [for idx, rule := range cr.Rules], appending to [filters]. *)
Fixpoint rulesToMgo (rules : list RuleFactory) (idx : Z)
    (filters : list MgoMap) : outcome (list MgoMap) :=
  match rules with
  | [] => Ok filters
  | rule :: rest =>
      match toMgo rule with
      | Ok filter => rulesToMgo rest (idx + 1)%Z (filters ++ [filter])
      | Err err => Err (invalidRuleAt idx err)
      | Panic => Panic
      end
  end.
End RangeToMgo.

(** A [[]map[string]interface{}] stored under a connective key. *)
Definition filtersValue (filters : list MgoMap) : AnyValue :=
  VSlice (VMap <$> filters).

Fixpoint CombinedRule_ToMgo (cr : CombinedRule) (opt : list (option RuleOption))
    {struct cr} : outcome MgoMap :=
  match cr with
  | mkCombinedRule condition rules =>
      returnIf (LogicOperator_Validate condition) ;;
      if bool_decide (length rules = 0) then
        Err "combined rules shouldn't be empty"
      else
      filters ← rulesToMgo (fun rule => RuleFactory_ToMgo rule opt) rules 0 [];
      if bool_decide (condition = Or) then
        Ok [(BKDBOR, filtersValue filters)]
      else if bool_decide (condition = And) then
        Ok [(BKDBAND, filtersValue filters)]
      else Err ("unexpected operator " +:+ condition)
  end
with RuleFactory_ToMgo (r : RuleFactory) (opt : list (option RuleOption))
    {struct r} : outcome MgoMap :=
  match r with
  | RAtom ar => AtomRule_ToMgo ar opt
  | RCombined cr => CombinedRule_ToMgo cr opt
  end.

(** ** MarshalBSON

    The receiver is a pointer and may be nil ([None]). *)


(** [for index, value := range cr.Rules], filling [b.Rules]. *)
Fixpoint marshalRules (rules : list RuleFactory) : outcome (list (list byte)) :=
  match rules with
  | [] => Ok []
  | value :: rest =>
      bsonVal ← bson_Marshal (BsonRuleFactory value);
      raws ← marshalRules rest;
      Ok (bsonVal :: raws)
  end.

Definition CombinedRule_MarshalBSON (cr : option CombinedRule)
  : outcome (list byte) :=
  match cr with
  | None => bson_Marshal_nilMap
  | Some cr =>
      raws ← marshalRules (Rules cr);
      bson_Marshal (BsonCombinedRuleBroker (Condition cr) raws)
  end.

End Rules.

(** ** Decoding

    [UnmarshalJSON] and [UnmarshalBSON] fill the rule they are called on
    and return an error: they are functions from the receiver and the raw
    bytes to the receiver afterwards and the result. [json.Unmarshal],
    [bson.Unmarshal] and the methods of [bson.RawValue] are the
    libraries'; [parseJsonRule] and [parseBsonRule] are declared outside
    rule.go, and so are the operators [In] and [NotIn]. They are taken as
    parameters, one per type of target for the two [Unmarshal];
    [RawValue.Document] returns the document or panics ([None]). *)

Record jsonAtomRuleBroker : Type := {
  jsonAtom_Field : string;
  jsonAtom_Operator : OpFactory;
  jsonAtom_Value : list byte
}.

(** A [bson.RawValue]: the type of the value and its bytes. *)
Record RawValue : Type := { RawValue_Type : byte; RawValue_Value : list byte }.

Record bsonAtomRuleBroker : Type := {
  bsonAtom_Field : string;
  bsonAtom_Operator : OpFactory;
  bsonAtom_Value : RawValue
}.

Record jsonCombinedRuleBroker : Type := {
  jsonCombined_Condition : LogicOperator;
  jsonCombined_Rules : list (list byte)
}.

Record bsonCombinedRuleBroker : Type := {
  bsonCombined_Condition : LogicOperator;
  bsonCombined_Rules : list (list byte)
}.

Class Decoders : Type := {
  filter_In : OpFactory;
  filter_NotIn : OpFactory;
  json_Unmarshal_atomBroker : list byte -> outcome jsonAtomRuleBroker;
  json_Unmarshal_combinedBroker : list byte -> outcome jsonCombinedRuleBroker;
  json_Unmarshal_slice : list byte -> outcome (list AnyValue);
  json_Unmarshal_interface : list byte -> outcome AnyValue;
  parseJsonRule : list byte -> outcome RuleFactory;
  bson_Unmarshal_atomBroker : list byte -> outcome bsonAtomRuleBroker;
  bson_Unmarshal_combinedBroker : list byte -> outcome bsonCombinedRuleBroker;
  RawValue_Unmarshal_slice : RawValue -> outcome (list AnyValue);
  RawValue_Unmarshal_interface : RawValue -> outcome AnyValue;
  RawValue_Document : RawValue -> option (list byte);
  parseBsonRule : list byte -> outcome RuleFactory
}.

(** A [*CombinedRule] while it is decoded: [make([]RuleFactory, n)]
    holds nil ([None]) where no rule has been stored yet. *)
Record CombinedRuleSlots : Type := {
  slots_Condition : LogicOperator;
  slots_Rules : list (option RuleFactory)
}.

(** The slots of a decoded combined rule. *)
Definition slotsOf (cr : CombinedRule) : CombinedRuleSlots :=
  {| slots_Condition := Condition cr; slots_Rules := Some <$> Rules cr |}.

(** [ar.Value = v; return nil] after a decoding of the value that
    succeeded, [return err] after one that failed. *)
Definition storeValue (ar : AtomRule) (decoded : outcome AnyValue)
  : AtomRule * outcome unit :=
  match decoded with
  | Ok v => (mkAtomRule (Field ar) (Operator ar) v, Ok tt)
  | Err err => (ar, Err err)
  | Panic => (ar, Panic)
  end.

(** The error the decoders of a combined rule return for [rules[idx]]. *)
Definition parseFailedAt (idx : Z) (rawRule : list byte) (err : string)
  : string :=
  "parse rules[" +:+ fmt_d idx +:+ "] " +:+ string_of_list_byte rawRule +:+
  " failed, err: " +:+ err.

Section RangeRaw.
Variable parse : list byte -> outcome RuleFactory.

(** [for idx, rawRule := range broker.Rules], storing each parsed rule
    at [cr.Rules[idx]]. *)
Fixpoint parseRules (rawRules : list (list byte)) (idx : nat)
    (rules : list (option RuleFactory))
  : list (option RuleFactory) * outcome unit :=
  match rawRules with
  | [] => (rules, Ok tt)
  | rawRule :: rest =>
      match parse rawRule with
      | Ok rule => parseRules rest (S idx) (<[idx := Some rule]> rules)
      | Err err => (rules, Err (parseFailedAt (Z.of_nat idx) rawRule err))
      | Panic => (rules, Panic)
      end
  end.
End RangeRaw.

Section Decoding.
Context `{Collaborators} `{Decoders}.

Definition isInOperator (op : OpFactory) : bool :=
  bool_decide (op = filter_In) || bool_decide (op = filter_NotIn).

Definition AtomRule_UnmarshalJSON (ar : AtomRule) (raw : list byte)
  : AtomRule * outcome unit :=
  match json_Unmarshal_atomBroker raw with
  | Err err => (ar, Err err)
  | Panic => (ar, Panic)
  | Ok br =>
      let ar := mkAtomRule (jsonAtom_Field br) (jsonAtom_Operator br) (Value ar) in
      if isInOperator (jsonAtom_Operator br) then
        storeValue ar
          (array ← json_Unmarshal_slice (jsonAtom_Value br); Ok (VSlice array))
      else if isFilterOperator (jsonAtom_Operator br) then
        storeValue ar
          (subRule ← parseJsonRule (jsonAtom_Value br); Ok (VRule subRule))
      else
        storeValue ar (json_Unmarshal_interface (jsonAtom_Value br))
  end.

Definition AtomRule_UnmarshalBSON (ar : AtomRule) (raw : list byte)
  : AtomRule * outcome unit :=
  match bson_Unmarshal_atomBroker raw with
  | Err err => (ar, Err err)
  | Panic => (ar, Panic)
  | Ok br =>
      let ar := mkAtomRule (bsonAtom_Field br) (bsonAtom_Operator br) (Value ar) in
      if isInOperator (bsonAtom_Operator br) then
        storeValue ar
          (array ← RawValue_Unmarshal_slice (bsonAtom_Value br);
           Ok (VSlice array))
      else if isFilterOperator (bsonAtom_Operator br) then
        storeValue ar
          match RawValue_Document (bsonAtom_Value br) with
          | Some document => subRule ← parseBsonRule document; Ok (VRule subRule)
          | None => Panic
          end
      else
        storeValue ar (RawValue_Unmarshal_interface (bsonAtom_Value br))
  end.

Definition CombinedRule_UnmarshalJSON (cr : CombinedRuleSlots) (raw : list byte)
  : CombinedRuleSlots * outcome unit :=
  match json_Unmarshal_combinedBroker raw with
  | Err err => (cr, Err ("unmarshal into combined rule failed, err: " +:+ err))
  | Panic => (cr, Panic)
  | Ok broker =>
      let made := replicate (length (jsonCombined_Rules broker)) None in
      let (rules, result) :=
        parseRules parseJsonRule (jsonCombined_Rules broker) 0 made in
      ({| slots_Condition := jsonCombined_Condition broker;
          slots_Rules := rules |}, result)
  end.

Definition CombinedRule_UnmarshalBSON (cr : CombinedRuleSlots) (raw : list byte)
  : CombinedRuleSlots * outcome unit :=
  match bson_Unmarshal_combinedBroker raw with
  | Err err => (cr, Err ("unmarshal into combined rule failed, err: " +:+ err))
  | Panic => (cr, Panic)
  | Ok broker =>
      let made := replicate (length (bsonCombined_Rules broker)) None in
      let (rules, result) :=
        parseRules parseBsonRule (bsonCombined_Rules broker) 0 made in
      ({| slots_Condition := bsonCombined_Condition broker;
          slots_Rules := rules |}, result)
  end.

End Decoding.

(** ** A concrete set of collaborators *)

Module Sample.

Definition hexDigit (n : N) : ascii :=
  ascii_of_N (if (n <? 10)%N then 48 + n else 87 + n)%N.

(** One byte as [strconv.Quote] writes it: the quote and the backslash
    after a backslash, the control characters by their letter or as
    [\xhh], the other bytes below 128 as they are. A byte from 128 on is
    written as [\xhh], which is what [strconv.Quote] does with a byte
    that is not part of a UTF-8 sequence; the printable characters
    beyond ASCII, which it keeps, are not told apart here. *)
Definition quoteByte (c : ascii) : string :=
  let n := N_of_ascii c in
  let escaped (letter : N) :=
    String (ascii_of_N 92) (String (ascii_of_N letter) EmptyString) in
  (if n =? 34 then escaped 34
   else if n =? 92 then escaped 92
   else if n =? 7 then escaped 97
   else if n =? 8 then escaped 98
   else if n =? 12 then escaped 102
   else if n =? 10 then escaped 110
   else if n =? 13 then escaped 114
   else if n =? 9 then escaped 116
   else if n =? 11 then escaped 118
   else if (n <? 32) || (126 <? n) then
     String (ascii_of_N 92)
       (String (ascii_of_N 120)
          (String (hexDigit (n / 16))
             (String (hexDigit (n mod 16)) EmptyString)))
   else String c EmptyString)%N.

Fixpoint quoteBytes (s : string) : string :=
  match s with
  | EmptyString => EmptyString
  | String c rest => quoteByte c +:+ quoteBytes rest
  end.

Definition quote (s : string) : string :=
  String (ascii_of_N 34) (quoteBytes s +:+ String (ascii_of_N 34) EmptyString).

Definition isScalar (v : AnyValue) : bool :=
  match v with
  | VString _ | VNumber _ | VBool _ => true
  | _ => false
  end.

Definition isRule (v : AnyValue) : bool :=
  match v with VRule _ => true | _ => false end.

Definition mgoTag (op : OpFactory) : string :=
  if bool_decide (op = "equal") then "$eq"
  else if bool_decide (op = "greater") then "$gt"
  else "$" +:+ op.

(** Modelled from the spec: the operator catalog, the logic catalog and the
    constants of [enumor] and [common] are not among the sources. This
    instance has the two logic tags, the equality, ordering,
    set-membership and structural operators, each with the value shape the
    spec gives it, and compiles a comparison to [{field: {tag: value}}];
    it has no encoder for rules. *)
#[export] Instance collaborators : Collaborators := {|
  FilterObject := "filter_object";
  FilterArray := "filter_array";
  FilterArrayElement := "element";
  DefaultMaxRuleLimit := 50;
  And := "AND";
  Or := "OR";
  BKDBOR := "$or";
  BKDBAND := "$and";
  enumor_String := "string";
  enumor_Numeric := "numeric";
  enumor_Boolean := "bool";
  enumor_Time := "time";
  enumor_Object := "object";
  enumor_Array := "array";
  LogicOperator_Validate lo :=
    if bool_decide (lo = "AND") || bool_decide (lo = "OR") then None
    else Some ("unsupported expression's logic operator: " +:+ lo);
  OpFactory_Validate op :=
    if bool_decide
         (op ∈ ["equal"; "greater"; "in"; "filter_object"; "filter_array"])
    then None
    else Some ("unsupported operator: " +:+ op);
  Operator_ValidateValue op v opt :=
    if bool_decide (op = "equal") || bool_decide (op = "greater") then
      if isScalar v then None else Some "invalid comparison value"
    else if bool_decide (op = "in") then
      match v with
      | VSlice _ => None
      | _ => Some "in operator's value should be an array"
      end
    else if isRule v then None
    else Some "filter operator's value should be a rule";
  Operator_ToMgo op field v := Ok [(field, VMap [(mgoTag op, v)])];
  util_IsNumeric v := match v with VNumber _ => true | _ => false end;
  util_ValidateDatetimeType v :=
    match v with
    | VString _ => None
    | _ => Some "value should be a string time format"
    end;
  strconv_Quote := quote;
  bson_Marshal src := Err "unsupported value"
|}.

(** Rules and options the properties are tried on. *)

Definition policy (limit depth : N) : ExprOption :=
  {| RuleFields := {["a" := "string"]};
     MaxInLimit := 0; MaxNotInLimit := 0;
     MaxRulesLimit := limit; MaxRulesDepth := depth |}.

Definition aIsOne : RuleFactory := RAtom (mkAtomRule "a" "equal" (VNumber 1)).
Definition aIsX : RuleFactory := RAtom (mkAtomRule "a" "equal" (VString "x")).

Definition cityRule : RuleFactory :=
  RAtom (mkAtomRule "city" "equal" (VString "sz")).
Definition addrRule : AtomRule :=
  mkAtomRule "addr" "filter_object" (VRule cityRule).
Definition addrNoRules : AtomRule :=
  mkAtomRule "addr" "filter_object" (VRule (RCombined (mkCombinedRule "AND" []))).

Definition tagsArray : RuleOption := {| Parent := "tags"; ParentType := "array" |}.
Definition firstTag : AtomRule := mkAtomRule "1" "equal" (VString "x").
Definition anyTag : AtomRule := mkAtomRule "element" "equal" (VString "x").
Definition zeroTag : AtomRule := mkAtomRule "0" "equal" VNil.

Definition ageOrName : CombinedRule :=
  mkCombinedRule "OR"
    [RAtom (mkAtomRule "age" "greater" (VNumber 18));
     RAtom (mkAtomRule "name" "equal" (VString "Al"))].

Definition firstThenZero : CombinedRule :=
  mkCombinedRule "AND" [RAtom firstTag; RAtom zeroTag].

Definition noField : RuleFactory := RAtom (mkAtomRule "" "equal" (VNumber 1)).

Definition nestedOnce : CombinedRule :=
  mkCombinedRule "AND" [RCombined (mkCombinedRule "AND" [aIsX])].

End Sample.

(** ** Values and trees, for the statements on validation *)

(** Whether every value that is no slice, inside [v] and however deep in
    its slices, passes [p]. *)
Fixpoint leavesAre (p : AnyValue -> bool) (v : AnyValue) : bool :=
  match v with
  | VSlice elems => forallb (leavesAre p) elems
  | _ => p v
  end.

Definition isString (v : AnyValue) : bool :=
  match v with VString _ => true | _ => false end.

Definition isBool (v : AnyValue) : bool :=
  match v with VBool _ => true | _ => false end.

(** No nil among the elements of [v]. *)
Definition nilFree (v : AnyValue) : bool :=
  leavesAre (fun leaf => negb (isNil leaf)) v.

(** Every atom rule of the tree, along the rules of its combined rules,
    has a nil value or a value without a nil element. *)
Fixpoint CombinedRule_nilFree (cr : CombinedRule) : bool :=
  match cr with
  | mkCombinedRule _ rules => forallb RuleFactory_nilFree rules
  end
with RuleFactory_nilFree (r : RuleFactory) : bool :=
  match r with
  | RAtom ar => isNil (Value ar) || nilFree (Value ar)
  | RCombined cr => CombinedRule_nilFree cr
  end.

(** Induction on a value along its slices. *)
Section ValueInduction.
Variable P : AnyValue -> Prop.
Hypothesis leafCase : forall v, (forall elems, v <> VSlice elems) -> P v.
Hypothesis sliceCase : forall elems, Forall P elems -> P (VSlice elems).

Fixpoint AnyValue_slices_ind (v : AnyValue) : P v :=
  match v with
  | VSlice elems =>
      sliceCase elems
        ((fix each (l : list AnyValue) : Forall P l :=
            match l with
            | [] => @List.Forall_nil _ P
            | e :: rest =>
                @List.Forall_cons _ P e rest (AnyValue_slices_ind e) (each rest)
            end) elems)
  | VNil => leafCase VNil (fun elems E => ltac:(discriminate E))
  | VString s => leafCase (VString s) (fun elems E => ltac:(discriminate E))
  | VNumber n => leafCase (VNumber n) (fun elems E => ltac:(discriminate E))
  | VBool b => leafCase (VBool b) (fun elems E => ltac:(discriminate E))
  | VMap m => leafCase (VMap m) (fun elems E => ltac:(discriminate E))
  | VRule r => leafCase (VRule r) (fun elems E => ltac:(discriminate E))
  end.
End ValueInduction.

(** The path context a list of options amounts to: its first option,
    when there is one and it is not nil. *)
Definition contextOf (opts : list (option RuleOption)) : option RuleOption :=
  match opts with
  | Some opt :: _ => Some opt
  | _ => None
  end.

(** * Properties *)

Section Properties.
Context `{Collaborators}.

Lemma isFilterOperator_true (op : OpFactory) :
  isFilterOperator op = true <-> op = FilterObject \/ op = FilterArray.
Proof.
  unfold isFilterOperator.
  rewrite orb_true_iff, !bool_decide_eq_true. reflexivity.
Qed.

Lemma isFilterOperator_false (op : OpFactory) :
  isFilterOperator op = false <-> op <> FilterObject /\ op <> FilterArray.
Proof.
  unfold isFilterOperator.
  rewrite orb_false_iff, !bool_decide_eq_false. reflexivity.
Qed.

(** ** Field enumeration *)

(** C7: an atom rule with a structural operator whose value is a nested
    rule reports the nested rule's paths, each prefixed by its own field
    and a dot, in the nested rule's order. *)
Theorem C7_RuleFields_nested (ar : AtomRule) (subRule : RuleFactory) :
  Operator ar = FilterObject \/ Operator ar = FilterArray ->
  Value ar = VRule subRule ->
  AtomRule_RuleFields ar =
    (fun p => Field ar +:+ "." +:+ p) <$> RuleFactory_RuleFields subRule.
Proof.
  intros Hop Hval. destruct ar as [field op value]; simpl in *.
  apply isFilterOperator_true in Hop. rewrite Hop. subst value. reflexivity.
Qed.

(** C10, amended: [RuleFields] of an atom rule is [[field]] for every
    operator that is not structural, and also for a structural operator
    whose value is no rule; it is empty exactly when the operator is
    structural and the value is a nested rule that reports no path. *)
Theorem C10_RuleFields_fallback (ar : AtomRule) :
  (Operator ar <> FilterObject -> Operator ar <> FilterArray ->
   AtomRule_RuleFields ar = [Field ar]) /\
  ((forall subRule, Value ar <> VRule subRule) ->
   AtomRule_RuleFields ar = [Field ar]) /\
  (AtomRule_RuleFields ar = [] <->
   (Operator ar = FilterObject \/ Operator ar = FilterArray) /\
   exists subRule, Value ar = VRule subRule /\
                   RuleFactory_RuleFields subRule = []).
Proof.
  destruct ar as [field op value]; simpl.
  split; [| split].
  - intros H1 H2.
    assert (isFilterOperator op = false) as ->
      by (apply isFilterOperator_false; auto).
    reflexivity.
  - intros Hno. destruct (isFilterOperator op); [| reflexivity].
    destruct value; try reflexivity. exfalso. eapply Hno; reflexivity.
  - rewrite <- isFilterOperator_true.
    destruct (isFilterOperator op) eqn:Hop.
    + destruct value as [| | | | | | sub]; try (split; [discriminate |];
        intros [_ (r & Hr & _)]; discriminate).
      split.
      * intros Hnil. split; [reflexivity |]. exists sub. split; [reflexivity |].
        apply fmap_nil_inv in Hnil. exact Hnil.
      * intros [_ (r & Hr & Hnil)]. injection Hr as <-. rewrite Hnil.
        reflexivity.
    + split; [discriminate |]. intros [? _]. discriminate.
Qed.

(** ** Compilation of an atom rule *)

(** C8: without a path context (no option, or a nil first option) an atom
    rule compiles to what its operator makes of its field and value. *)
Theorem C8_AtomRule_ToMgo_no_context (ar : AtomRule)
    (opts : list (option RuleOption)) :
  opts = [] \/ (exists rest, opts = None :: rest) ->
  AtomRule_ToMgo ar opts = Operator_ToMgo (Operator ar) (Field ar) (Value ar).
Proof.
  intros [-> | [rest ->]]; reflexivity.
Qed.

(** C4: under an array parent with a non-empty name, the sentinel field
    compiles against the parent itself; any other field has to parse as
    an integer above zero, and then compiles against parent, dot, field;
    a field that does not parse, or parses to zero or less, is an error. *)
Theorem C4_AtomRule_ToMgo_array (ar : AtomRule) (opt : RuleOption)
    (rest : list (option RuleOption)) :
  enumor_Array <> enumor_Object ->
  Parent opt <> "" ->
  ParentType opt = enumor_Array ->
  (Field ar = FilterArrayElement ->
   AtomRule_ToMgo ar (Some opt :: rest) =
     Operator_ToMgo (Operator ar) (Parent opt) (Value ar)) /\
  (Field ar <> FilterArrayElement ->
   (forall index, Atoi (Field ar) = inl index -> (0 < index)%Z ->
      AtomRule_ToMgo ar (Some opt :: rest) =
        Operator_ToMgo (Operator ar) (Parent opt +:+ "." +:+ Field ar)
          (Value ar)) /\
   (forall index, Atoi (Field ar) = inl index -> (index <= 0)%Z ->
      exists msg, AtomRule_ToMgo ar (Some opt :: rest) = Err msg) /\
   (forall e, Atoi (Field ar) = inr e ->
      exists msg, AtomRule_ToMgo ar (Some opt :: rest) = Err msg)).
Proof.
  intros Hne Hparent Htype. unfold AtomRule_ToMgo.
  rewrite (bool_decide_eq_false_2 _ Hparent), Htype.
  rewrite (bool_decide_eq_false_2 _ Hne), (bool_decide_eq_true_2 _ eq_refl).
  split.
  - intros Hfield. rewrite (bool_decide_eq_true_2 _ Hfield). reflexivity.
  - intros Hfield. rewrite (bool_decide_eq_false_2 _ Hfield).
    split; [| split].
    + intros index -> Hpos.
      destruct (Z.leb_spec index 0); [lia | reflexivity].
    + intros index -> Hneg.
      destruct (Z.leb_spec index 0); [eauto | lia].
    + intros e ->. eauto.
Qed.

(** ** Compilation of a combined rule *)

Section RangeToMgoFacts.
Variable toMgo : RuleFactory -> outcome MgoMap.

Lemma rulesToMgo_all_ok (rules : list RuleFactory) (filters : list MgoMap) :
  Forall2 (fun rule filter => toMgo rule = Ok filter) rules filters ->
  forall idx acc, rulesToMgo toMgo rules idx acc = Ok (acc ++ filters).
Proof.
  induction 1 as [| rule filter rules filters Hrule _ IH]; intros idx acc.
  - simpl. rewrite app_nil_r. reflexivity.
  - simpl. rewrite Hrule, IH, <- app_assoc. reflexivity.
Qed.

Lemma rulesToMgo_first_error (rules : list RuleFactory) (i : nat)
    (child : RuleFactory) (err : string) :
  rules !! i = Some child ->
  (forall j rule, j < i -> rules !! j = Some rule ->
     exists filter, toMgo rule = Ok filter) ->
  toMgo child = Err err ->
  forall idx acc,
    rulesToMgo toMgo rules idx acc = Err (invalidRuleAt (idx + Z.of_nat i) err).
Proof.
  revert i. induction rules as [| rule rules IH]; intros i Hi Hbefore Herr idx acc.
  - discriminate.
  - destruct i as [| i]; simpl in *.
    + injection Hi as ->. rewrite Herr. do 2 f_equal. lia.
    + destruct (Hbefore 0 rule) as [filter ->]; [lia | reflexivity |].
      rewrite (IH i); [do 2 f_equal; lia | assumption | | assumption].
      intros j r Hj Hr. apply (Hbefore (S j) r); [lia | assumption].
Qed.

Lemma rulesToMgo_length (rules : list RuleFactory) :
  forall idx acc filters,
    rulesToMgo toMgo rules idx acc = Ok filters ->
    length filters = length acc + length rules.
Proof.
  induction rules as [| rule rules IH]; intros idx acc filters; simpl.
  - intros [= <-]. lia.
  - destruct (toMgo rule); try discriminate.
    intros Hrest. apply IH in Hrest. rewrite Hrest, length_app. simpl. lia.
Qed.
End RangeToMgoFacts.

Lemma CombinedRule_ToMgo_eq (cr : CombinedRule) (opt : list (option RuleOption)) :
  CombinedRule_ToMgo cr opt =
    (returnIf (LogicOperator_Validate (Condition cr)) ;;
     if bool_decide (length (Rules cr) = 0) then
       Err "combined rules shouldn't be empty"
     else
       filters ← rulesToMgo (fun rule => RuleFactory_ToMgo rule opt) (Rules cr) 0 [];
       if bool_decide (Condition cr = Or) then
         Ok [(BKDBOR, filtersValue filters)]
       else if bool_decide (Condition cr = And) then
         Ok [(BKDBAND, filtersValue filters)]
       else Err ("unexpected operator " +:+ Condition cr)).
Proof. destruct cr; reflexivity. Qed.

(** C5: a combined rule with a recognized condition and at least one
    rule, all of which compile, compiles to a map with one key, the one
    of its condition, holding the compiled rules in their order, each
    compiled with the options the combined rule was given; a condition
    that is neither [And] nor [Or] never compiles. *)
Theorem C5_CombinedRule_ToMgo (cr : CombinedRule)
    (opt : list (option RuleOption)) (filters : list MgoMap) :
  And <> Or ->
  LogicOperator_Validate And = None ->
  LogicOperator_Validate Or = None ->
  Rules cr <> [] ->
  Forall2 (fun rule filter => RuleFactory_ToMgo rule opt = Ok filter)
    (Rules cr) filters ->
  length filters = length (Rules cr) /\
  (Condition cr = And ->
   CombinedRule_ToMgo cr opt = Ok [(BKDBAND, filtersValue filters)]) /\
  (Condition cr = Or ->
   CombinedRule_ToMgo cr opt = Ok [(BKDBOR, filtersValue filters)]) /\
  (Condition cr <> And -> Condition cr <> Or ->
   exists msg, CombinedRule_ToMgo cr opt = Err msg).
Proof.
  intros Hne Hand Hor Hrules Hall.
  split; [symmetry; eapply Forall2_length; eassumption |].
  rewrite CombinedRule_ToMgo_eq.
  assert (length (Rules cr) <> 0) as Hlen
    by (destruct (Rules cr); [congruence | discriminate]).
  rewrite (bool_decide_eq_false_2 _ Hlen).
  rewrite (rulesToMgo_all_ok _ _ _ Hall). simpl.
  split; [| split].
  - intros ->. rewrite Hand. simpl.
    rewrite (bool_decide_eq_false_2 _ Hne), (bool_decide_eq_true_2 _ eq_refl).
    reflexivity.
  - intros ->. rewrite Hor. simpl.
    rewrite (bool_decide_eq_true_2 _ eq_refl). reflexivity.
  - intros Hnand Hnor.
    destruct (LogicOperator_Validate (Condition cr)); simpl; [eauto |].
    rewrite (bool_decide_eq_false_2 _ Hnor), (bool_decide_eq_false_2 _ Hnand).
    eauto.
Qed.

(** Whatever its rules do, a combined rule whose condition is neither
    [And] nor [Or] has no compiled form. *)
Lemma CombinedRule_ToMgo_unexpected (cr : CombinedRule)
    (opt : list (option RuleOption)) (filter : MgoMap) :
  Condition cr <> And -> Condition cr <> Or ->
  CombinedRule_ToMgo cr opt <> Ok filter.
Proof.
  intros Hnand Hnor. rewrite CombinedRule_ToMgo_eq.
  destruct (LogicOperator_Validate (Condition cr)); simpl; [discriminate |].
  destruct (bool_decide (length (Rules cr) = 0)); [discriminate |].
  destruct (rulesToMgo _ _ _ _); simpl; try discriminate.
  rewrite (bool_decide_eq_false_2 _ Hnor), (bool_decide_eq_false_2 _ Hnand).
  discriminate.
Qed.

(** ** Validation of a combined rule *)

Section RangeRulesFacts.
Variable validate : RuleFactory -> outcome unit.

Lemma validateRules_all_ok (rules : list RuleFactory) :
  (forall rule, rule ∈ rules -> validate rule = Ok tt) ->
  validateRules validate rules = Ok tt.
Proof.
  induction rules as [| rule rules IH]; intros Hall; simpl.
  - reflexivity.
  - rewrite (Hall rule) by (left; reflexivity). simpl.
    apply IH. intros r Hr. apply Hall. right. exact Hr.
Qed.

Lemma validateRules_first_failure (rules : list RuleFactory) (i : nat)
    (child : RuleFactory) :
  rules !! i = Some child ->
  (forall j rule, j < i -> rules !! j = Some rule -> validate rule = Ok tt) ->
  validateRules validate rules =
    (validate child ;; validateRules validate (drop (S i) rules)).
Proof.
  revert i. induction rules as [| rule rules IH]; intros i Hi Hbefore.
  - discriminate.
  - destruct i as [| i]; simpl in *.
    + injection Hi as ->. rewrite drop_0. reflexivity.
    + rewrite (Hbefore 0 rule) by (lia || reflexivity). simpl.
      apply IH; [assumption |].
      intros j r Hj Hr. apply (Hbefore (S j) r); [lia | assumption].
Qed.

Lemma validateRules_not_ok (rules : list RuleFactory) (child : RuleFactory) :
  child ∈ rules -> validate child <> Ok tt ->
  validateRules validate rules <> Ok tt.
Proof.
  induction rules as [| rule rules IH]; intros Hin Hbad.
  - inversion Hin.
  - simpl. apply elem_of_cons in Hin as [<- | Hin].
    + destruct (validate child) as [[] | |]; simpl; congruence.
    + destruct (validate rule) as [[] | |]; simpl; try discriminate.
      apply IH; assumption.
Qed.
End RangeRulesFacts.

Lemma CombinedRule_Validate_eq (cr : CombinedRule) (opt : option ExprOption) :
  CombinedRule_Validate cr opt =
    (CombinedRule_checkRules cr opt ;;
     childOpt ← childOptOf opt;
     validateRules (fun one => RuleFactory_Validate one childOpt) (Rules cr)).
Proof. destruct cr; reflexivity. Qed.

Lemma int_of_uint_le (u : N) : (int_of_uint u <= Z.of_N u)%Z.
Proof.
  unfold int_of_uint.
  assert (0 <= Z.of_N u mod 2 ^ 64 <= Z.of_N u)%Z as Hmod.
  { split; [apply Z.mod_pos_bound; lia | apply Z.mod_le; lia]. }
  destruct (Z.ltb_spec (Z.of_N u mod 2 ^ 64) (2 ^ 63)); lia.
Qed.

Lemma checkRules_empty (cr : CombinedRule) (opt : option ExprOption) :
  Rules cr = [] -> exists msg, CombinedRule_checkRules cr opt = Err msg.
Proof.
  intros Hnil. unfold CombinedRule_checkRules.
  destruct (LogicOperator_Validate (Condition cr)); simpl; [eauto |].
  rewrite Hnil. simpl. eauto.
Qed.

Lemma checkRules_overhead (cr : CombinedRule) (opt : option ExprOption) :
  (maxRulesOf opt < N.of_nat (length (Rules cr)))%N ->
  exists msg, CombinedRule_checkRules cr opt = Err msg.
Proof.
  intros Hmax. unfold CombinedRule_checkRules.
  destruct (LogicOperator_Validate (Condition cr)); simpl; [eauto |].
  destruct (bool_decide (length (Rules cr) = 0)); [eauto |].
  pose proof (int_of_uint_le (maxRulesOf opt)) as Hle.
  rewrite bool_decide_eq_true_2 by lia. eauto.
Qed.

Lemma Validate_checkRules_error (cr : CombinedRule) (opt : option ExprOption) :
  (exists msg, CombinedRule_checkRules cr opt = Err msg) ->
  exists msg, CombinedRule_Validate cr opt = Err msg.
Proof.
  intros [msg Hmsg]. rewrite CombinedRule_Validate_eq, Hmsg. simpl. eauto.
Qed.

(** C6: validation of a combined rule fails when it has no rules, and
    when it has more rules than the limit in force: [MaxRulesLimit] of
    the options when that is positive, [DefaultMaxRuleLimit] when the
    options are nil or their limit is zero. *)
Theorem C6_CombinedRule_Validate_count (cr : CombinedRule)
    (opt : option ExprOption) :
  (Rules cr = [] -> exists msg, CombinedRule_Validate cr opt = Err msg) /\
  (forall o, opt = Some o -> (0 < MaxRulesLimit o)%N ->
     (MaxRulesLimit o < N.of_nat (length (Rules cr)))%N ->
     exists msg, CombinedRule_Validate cr opt = Err msg) /\
  (opt = None \/ (exists o, opt = Some o /\ MaxRulesLimit o = 0%N) ->
     (DefaultMaxRuleLimit < N.of_nat (length (Rules cr)))%N ->
     exists msg, CombinedRule_Validate cr opt = Err msg).
Proof.
  split; [| split].
  - intros Hnil. apply Validate_checkRules_error, checkRules_empty, Hnil.
  - intros o -> Hpos Hmax.
    apply Validate_checkRules_error, checkRules_overhead. simpl.
    apply N.ltb_lt in Hpos. rewrite Hpos. exact Hmax.
  - intros Hopt Hmax.
    apply Validate_checkRules_error, checkRules_overhead.
    destruct Hopt as [-> | (o & -> & Hzero)]; simpl; [exact Hmax |].
    rewrite Hzero. exact Hmax.
Qed.

(** C2, amended: when the rule at position [i] is the first to fail,
    [ToMgo] returns its error wrapped with [i], and [Validate] returns its
    error as it is. *)
Theorem C2_first_failing_rule (cr : CombinedRule) (i : nat)
    (child : RuleFactory) (err : string) :
  Rules cr !! i = Some child ->
  (forall opt,
     LogicOperator_Validate (Condition cr) = None ->
     (forall j rule, j < i -> Rules cr !! j = Some rule ->
        exists filter, RuleFactory_ToMgo rule opt = Ok filter) ->
     RuleFactory_ToMgo child opt = Err err ->
     CombinedRule_ToMgo cr opt = Err (invalidRuleAt (Z.of_nat i) err)) /\
  (forall opt childOpt,
     CombinedRule_checkRules cr opt = Ok tt ->
     childOptOf opt = Ok childOpt ->
     (forall j rule, j < i -> Rules cr !! j = Some rule ->
        RuleFactory_Validate rule childOpt = Ok tt) ->
     RuleFactory_Validate child childOpt = Err err ->
     CombinedRule_Validate cr opt = Err err).
Proof.
  intros Hi. split.
  - intros opt Hcond Hbefore Herr. rewrite CombinedRule_ToMgo_eq, Hcond. simpl.
    assert (length (Rules cr) <> 0) as Hlen
      by (destruct (Rules cr); [discriminate | discriminate]).
    rewrite (bool_decide_eq_false_2 _ Hlen).
    rewrite (rulesToMgo_first_error _ _ i child err Hi Hbefore Herr).
    reflexivity.
  - intros opt childOpt Hself Hchild Hbefore Herr.
    rewrite CombinedRule_Validate_eq, Hself, Hchild. simpl.
    rewrite (validateRules_first_failure _ _ i child Hi Hbefore), Herr.
    reflexivity.
Qed.

(** *** The depth of the rules *)

Lemma childOptOf_unset (o : ExprOption) :
  MaxRulesDepth o = 0%N -> childOptOf (Some o) = Ok None.
Proof. intros Hd. unfold childOptOf. rewrite Hd. reflexivity. Qed.

Lemma childOptOf_exhausted (o : ExprOption) :
  MaxRulesDepth o = 1%N ->
  childOptOf (Some o) = Err "expression rules depth exceeds maximum".
Proof. intros Hd. unfold childOptOf. rewrite Hd. reflexivity. Qed.

Lemma childOptOf_deeper (o : ExprOption) :
  (2 <= MaxRulesDepth o)%N ->
  childOptOf (Some o) = Ok (Some (withDepth o (MaxRulesDepth o - 1))).
Proof.
  intros Hd. unfold childOptOf.
  destruct (N.ltb_spec 0 (MaxRulesDepth o)); [| lia].
  destruct (N.eqb_spec (MaxRulesDepth o) 1); [lia | reflexivity].
Qed.

Lemma checkRuleFields_no_panic (fields : gset string) (opt : option ExprOption) :
  checkRuleFields fields opt <> Panic.
Proof.
  unfold checkRuleFields. destruct opt as [o |]; [| discriminate].
  destruct (bool_decide _); [| discriminate].
  destruct (list_find _ _) as [[] |]; discriminate.
Qed.

Lemma checkRules_no_panic (cr : CombinedRule) (opt : option ExprOption) :
  CombinedRule_checkRules cr opt <> Panic.
Proof.
  unfold CombinedRule_checkRules.
  destruct (LogicOperator_Validate (Condition cr)); simpl; [discriminate |].
  repeat (destruct (bool_decide _); [discriminate |]).
  apply checkRuleFields_no_panic.
Qed.

(** With a depth of one left, no combined rule is valid. *)
Lemma Validate_depth_exhausted (cr : CombinedRule) (o : ExprOption) :
  MaxRulesDepth o = 1%N ->
  exists msg, CombinedRule_Validate cr (Some o) = Err msg.
Proof.
  intros Hd. rewrite CombinedRule_Validate_eq, (childOptOf_exhausted o Hd).
  pose proof (checkRules_no_panic cr (Some o)) as Hnp.
  destruct (CombinedRule_checkRules cr (Some o)) as [[] | msg |];
    simpl; [eauto | eauto | congruence].
Qed.

(** With the depth unset, the rules of a combined rule are validated
    with nil options. *)
Lemma Validate_depth_unset (cr : CombinedRule) (o : ExprOption) :
  MaxRulesDepth o = 0%N ->
  CombinedRule_Validate cr (Some o) =
    (CombinedRule_checkRules cr (Some o) ;;
     validateRules (fun one => RuleFactory_Validate one None) (Rules cr)).
Proof.
  intros Hd. rewrite CombinedRule_Validate_eq, (childOptOf_unset o Hd).
  reflexivity.
Qed.

(** C3, amended: a depth of 1 rejects every combined rule. A depth of 2
    rejects every combined rule that has a combined rule among its rules,
    and lets a combined rule of atom rules through: it is valid when its
    own checks pass and its atom rules are valid at depth 1. From a depth
    of 2 on the depth check passes, and the rules are validated with the
    same options but one less depth. *)
Theorem C3_depth_budget (cr : CombinedRule) (o : ExprOption) :
  (MaxRulesDepth o = 1%N ->
   exists msg, CombinedRule_Validate cr (Some o) = Err msg) /\
  (MaxRulesDepth o = 2%N ->
   ((exists sub, RCombined sub ∈ Rules cr) ->
    CombinedRule_Validate cr (Some o) <> Ok tt) /\
   (CombinedRule_checkRules cr (Some o) = Ok tt ->
    (forall rule, rule ∈ Rules cr ->
       exists ar, rule = RAtom ar /\
                  AtomRule_Validate ar (Some (withDepth o 1)) = Ok tt) ->
    CombinedRule_Validate cr (Some o) = Ok tt)) /\
  ((2 <= MaxRulesDepth o)%N ->
   childOptOf (Some o) = Ok (Some (withDepth o (MaxRulesDepth o - 1)))).
Proof.
  split; [apply Validate_depth_exhausted |].
  split; [| apply childOptOf_deeper].
  intros Hd.
  assert (childOptOf (Some o) = Ok (Some (withDepth o 1))) as Hchild.
  { rewrite childOptOf_deeper by lia. rewrite Hd. reflexivity. }
  rewrite CombinedRule_Validate_eq, Hchild. split.
  - intros [sub Hsub].
    destruct (CombinedRule_checkRules cr (Some o)) as [[] | |];
      simpl; try discriminate.
    apply (validateRules_not_ok _ _ (RCombined sub) Hsub). simpl.
    destruct (Validate_depth_exhausted sub (withDepth o 1) eq_refl) as [msg ->].
    discriminate.
  - intros -> Hatoms. simpl. apply validateRules_all_ok.
    intros rule Hrule. destruct (Hatoms rule Hrule) as (ar & -> & Hvalid).
    exact Hvalid.
Qed.

Lemma validateRules_ok_inv (validate : RuleFactory -> outcome unit)
    (rules : list RuleFactory) :
  validateRules validate rules = Ok tt ->
  Forall (fun rule => validate rule = Ok tt) rules.
Proof.
  induction rules as [| rule rules IH]; simpl; intros Hok.
  - constructor.
  - destruct (validate rule) as [[] | |] eqn:Hrule; try discriminate.
    constructor; [exact Hrule | apply IH, Hok].
Qed.

(** X21: the invariant behind the depth check: a rule that is valid
    under a set [MaxRulesDepth] has at most that many levels, the level
    of the atom rules included. *)
Lemma Validate_bounds_levels (r : RuleFactory) :
  forall o, (0 < MaxRulesDepth o)%N ->
    RuleFactory_Validate r (Some o) = Ok tt ->
    (N.of_nat (RuleFactory_levels r) <= MaxRulesDepth o)%N.
Proof.
  induction r as [ar | condition rules IH] using RuleFactory_rules_ind;
    intros o Hset Hvalid.
  - simpl. lia.
  - change (RuleFactory_Validate (RCombined (mkCombinedRule condition rules)) (Some o))
      with (CombinedRule_Validate (mkCombinedRule condition rules) (Some o))
      in Hvalid.
    rewrite CombinedRule_Validate_eq in Hvalid.
    destruct (N.eq_dec (MaxRulesDepth o) 1%N) as [Hone | Hmore].
    { rewrite (childOptOf_exhausted o Hone) in Hvalid.
      destruct (CombinedRule_checkRules _ _) as [[] | |]; discriminate. }
    rewrite childOptOf_deeper in Hvalid by lia.
    destruct (CombinedRule_checkRules _ _) as [[] | |]; try discriminate.
    simpl in Hvalid.
    apply validateRules_ok_inv in Hvalid.
    assert (N.of_nat (foldr (fun rule deepest =>
                               Nat.max (RuleFactory_levels rule) deepest)
                        0%nat rules) <= MaxRulesDepth o - 1)%N as Hdeepest.
    { induction rules as [| rule rules IHrules]; simpl; [lia |].
      apply Forall_cons in IH as [IHrule IHrest].
      apply Forall_cons in Hvalid as [Hrule Hrest].
      specialize (IHrules IHrest Hrest).
      assert (N.of_nat (RuleFactory_levels rule) <= MaxRulesDepth o - 1)%N.
      { apply (IHrule (withDepth o (MaxRulesDepth o - 1))); simpl; [lia | exact Hrule]. }
      lia. }
    simpl. lia.
Qed.

(** ** Serialization of a nil receiver *)

Lemma bsonDocument_empty : bsonDocument [] = [x05; x00; x00; x00; x00].
Proof. reflexivity. Qed.


(** * Further properties of the rules *)

(** ** Fields of a combined rule *)




(** ** What a valid combined rule looks like *)

Lemma checkRuleFields_ok_declared (fields : gset string) (o : ExprOption) :
  0 < size (RuleFields o) ->
  checkRuleFields fields (Some o) = Ok tt ->
  forall field, field ∈ fields -> is_Some (RuleFields o !! field).
Proof.
  intros Hsize Hok field Hfield. unfold checkRuleFields in Hok.
  rewrite bool_decide_eq_true_2 in Hok by exact Hsize.
  destruct (list_find _ _) as [[i one] |] eqn:Hfind; [discriminate |].
  apply list_find_None in Hfind. rewrite Forall_forall in Hfind.
  apply elem_of_dom. apply dec_stable. apply Hfind.
  apply elem_of_elements. exact Hfield.
Qed.

Lemma checkRules_ok_inv (cr : CombinedRule) (opt : option ExprOption) :
  CombinedRule_checkRules cr opt = Ok tt ->
  LogicOperator_Validate (Condition cr) = None /\
  Rules cr <> [] /\
  (Z.of_nat (length (Rules cr)) <= int_of_uint (maxRulesOf opt))%Z /\
  CombinedRule_RuleFields cr <> [] /\
  checkRuleFields (list_to_set (CombinedRule_RuleFields cr)) opt = Ok tt.
Proof.
  unfold CombinedRule_checkRules. intros Hok.
  destruct (LogicOperator_Validate (Condition cr)); [discriminate |].
  simpl in Hok. split; [reflexivity |].
  destruct (bool_decide (length (Rules cr) = 0)) eqn:Hlen; [discriminate |].
  apply bool_decide_eq_false in Hlen.
  split; [intros Hnil; rewrite Hnil in Hlen; apply Hlen; reflexivity |].
  destruct (bool_decide (_ < _)%Z) eqn:Hmax; [discriminate |].
  apply bool_decide_eq_false in Hmax. split; [lia |].
  destruct (bool_decide (size _ = 0)) eqn:Hsize; [discriminate |].
  apply bool_decide_eq_false in Hsize. split; [| exact Hok].
  intros Hnil. rewrite Hnil in Hsize. apply Hsize. reflexivity.
Qed.

(** X2: a combined rule that [Validate] accepts has a condition the
    logic catalog accepts, at least one rule and no more than the limit
    in force, and each of its rules is accepted under the options its
    depth check hands down. *)
Theorem CombinedRule_Validate_ok_inv (cr : CombinedRule)
    (opt : option ExprOption) :
  CombinedRule_Validate cr opt = Ok tt ->
  LogicOperator_Validate (Condition cr) = None /\
  Rules cr <> [] /\
  (Z.of_nat (length (Rules cr)) <= int_of_uint (maxRulesOf opt))%Z /\
  exists childOpt,
    childOptOf opt = Ok childOpt /\
    Forall (fun rule => RuleFactory_Validate rule childOpt = Ok tt) (Rules cr).
Proof.
  rewrite CombinedRule_Validate_eq. intros Hok.
  destruct (CombinedRule_checkRules cr opt) as [[] | |] eqn:Hself;
    try discriminate.
  apply checkRules_ok_inv in Hself as (Hcond & Hrules & Hmax & _ & _).
  simpl in Hok.
  destruct (childOptOf opt) as [childOpt | |]; try discriminate.
  simpl in Hok. apply validateRules_ok_inv in Hok. eauto 10.
Qed.

(** X3: under options that declare fields, a combined rule that refers,
    in any of its rules and at any depth of them, to a field that is not
    declared is rejected with an error, whatever the depth setting. *)
Theorem CombinedRule_Validate_undeclared_field (cr : CombinedRule)
    (o : ExprOption) (field : string) :
  0 < size (RuleFields o) ->
  field ∈ CombinedRule_RuleFields cr ->
  RuleFields o !! field = None ->
  exists msg, CombinedRule_Validate cr (Some o) = Err msg.
Proof.
  intros Hsize Hfield Hnone. apply Validate_checkRules_error.
  pose proof (checkRules_no_panic cr (Some o)) as Hnp.
  destruct (CombinedRule_checkRules cr (Some o)) as [[] | msg |] eqn:Hself;
    [| eauto | congruence].
  apply checkRules_ok_inv in Hself as (_ & _ & _ & _ & Hok).
  destruct (checkRuleFields_ok_declared _ o Hsize Hok field) as [typ Htyp].
  - apply elem_of_list_to_set. exact Hfield.
  - congruence.
Qed.

(** X4: a combined rule whose rules report no field at all, because it
    has no rules or because they are structural atom rules over rules
    without fields, is rejected with an error under any options. *)
Theorem CombinedRule_Validate_no_field (cr : CombinedRule)
    (opt : option ExprOption) :
  CombinedRule_RuleFields cr = [] ->
  exists msg, CombinedRule_Validate cr opt = Err msg.
Proof.
  intros Hnil. apply Validate_checkRules_error.
  pose proof (checkRules_no_panic cr opt) as Hnp.
  destruct (CombinedRule_checkRules cr opt) as [[] | msg |] eqn:Hself;
    [| eauto | congruence].
  apply checkRules_ok_inv in Hself as (_ & _ & _ & Hfields & _).
  contradiction.
Qed.

(** ** Values against a declared type *)

Lemma validateFieldValue_cons (e : AnyValue) (l : list AnyValue)
    (typ : ColumnType) :
  validateFieldValue (VSlice (e :: l)) typ =
    (validateFieldValue e typ ;; validateFieldValue (VSlice l) typ).
Proof. reflexivity. Qed.

Lemma validateFieldValue_slice_ok (l : list AnyValue) (typ : ColumnType) :
  validateFieldValue (VSlice l) typ = Ok tt <->
  Forall (fun e => validateFieldValue e typ = Ok tt) l.
Proof.
  induction l as [| e l IH].
  - split; [constructor | reflexivity].
  - rewrite validateFieldValue_cons, Forall_cons, <- IH.
    destruct (validateFieldValue e typ) as [[] | |]; simpl;
      split; try tauto; try discriminate; intros [? _]; discriminate.
Qed.

(** X5: a slice is valid against a declared type exactly when each of
    its elements is, the empty slice always; and when an element is not,
    the slice gets the result, error or panic, of the first such element. *)
Theorem validateFieldValue_slice (l : list AnyValue) (typ : ColumnType) :
  (validateFieldValue (VSlice l) typ = Ok tt <->
   Forall (fun e => validateFieldValue e typ = Ok tt) l) /\
  (forall i e,
     l !! i = Some e ->
     (forall j before, j < i -> l !! j = Some before ->
        validateFieldValue before typ = Ok tt) ->
     validateFieldValue e typ <> Ok tt ->
     validateFieldValue (VSlice l) typ = validateFieldValue e typ).
Proof.
  split; [apply validateFieldValue_slice_ok |].
  induction l as [| first l IH]; intros i e Hi Hbefore Hbad.
  - discriminate.
  - rewrite validateFieldValue_cons. destruct i as [| i]; simpl in Hi.
    + injection Hi as ->.
      destruct (validateFieldValue e typ) as [[] | |]; simpl; congruence.
    + rewrite (Hbefore 0 first) by (lia || reflexivity). simpl.
      apply (IH i); [exact Hi | | exact Hbad].
      intros j before Hj Hlook. apply (Hbefore (S j)); [lia | exact Hlook].
Qed.

(** X6: a value is valid against the string type exactly when it is a
    string, or a slice, emptied or nested as it may be, of such values. *)
Theorem validateFieldValue_string (v : AnyValue) :
  validateFieldValue v enumor_String = Ok tt <-> leavesAre isString v = true.
Proof.
  induction v as [v Hleaf | elems IH] using AnyValue_slices_ind.
  - destruct v; simpl; rewrite ?bool_decide_eq_true_2 by reflexivity;
      try (split; (reflexivity || discriminate)).
    exfalso. eapply Hleaf. reflexivity.
  - rewrite validateFieldValue_slice_ok. simpl. rewrite forallb_forall.
    rewrite Forall_forall in *. setoid_rewrite <- list_elem_of_In.
    split; intros Hall e He; apply IH; auto.
Qed.

(** X7: against a column type that is none of string, numeric, boolean
    and time, the only valid values are those without any element that
    is no slice; every other value is an error or, for a nil, a panic. *)
Theorem validateFieldValue_unsupported (v : AnyValue) (typ : ColumnType) :
  typ <> enumor_String -> typ <> enumor_Numeric ->
  typ <> enumor_Boolean -> typ <> enumor_Time ->
  (validateFieldValue v typ = Ok tt <-> leavesAre (fun _ => false) v = true).
Proof.
  intros H1 H2 H3 H4.
  induction v as [v Hleaf | elems IH] using AnyValue_slices_ind.
  - destruct v; simpl; rewrite ?bool_decide_eq_false_2 by assumption;
      try (split; discriminate).
    exfalso. eapply Hleaf. reflexivity.
  - rewrite validateFieldValue_slice_ok. simpl. rewrite forallb_forall.
    rewrite Forall_forall in *. setoid_rewrite <- list_elem_of_In.
    split; intros Hall e He; apply IH; auto.
Qed.

(** ** Where validation can panic *)

Lemma returnIf_no_panic (e : error) : returnIf e <> Panic.
Proof. destruct e; discriminate. Qed.

Lemma validateFieldValue_no_panic (v : AnyValue) (typ : ColumnType) :
  nilFree v = true -> validateFieldValue v typ <> Panic.
Proof.
  unfold nilFree.
  induction v as [v Hleaf | elems IH] using AnyValue_slices_ind; intros Hfree.
  - destruct v; simpl in *; try discriminate;
      repeat (destruct (bool_decide _); try discriminate);
      try (destruct (util_IsNumeric _); discriminate);
      try apply returnIf_no_panic.
    exfalso. eapply Hleaf. reflexivity.
  - simpl in Hfree. rewrite forallb_forall in Hfree.
    induction elems as [| e elems IHelems]; [discriminate |].
    rewrite validateFieldValue_cons.
    apply Forall_cons in IH as [IHe IHrest].
    assert (validateFieldValue e typ <> Panic) as He
      by (apply IHe, Hfree; left; reflexivity).
    assert (validateFieldValue (VSlice elems) typ <> Panic) as Hrest
      by (apply IHelems;
          [exact IHrest | intros x Hx; apply Hfree; right; exact Hx]).
    destruct (validateFieldValue e typ) as [[] | |];
      [exact Hrest | discriminate | congruence].
Qed.

Lemma AtomRule_Validate_no_panic (ar : AtomRule) (opt : option ExprOption) :
  isNil (Value ar) || nilFree (Value ar) = true ->
  AtomRule_Validate ar opt <> Panic.
Proof.
  intros Hfree. unfold AtomRule_Validate.
  destruct (bool_decide (Field ar = "")); [discriminate |].
  destruct (OpFactory_Validate (Operator ar)); simpl; [discriminate |].
  destruct (isNil (Value ar)) eqn:Hnil; [discriminate |].
  simpl in Hfree.
  assert (forall x : outcome unit, x <> Panic ->
            (x ;; match Operator_ValidateValue (Operator ar) (Value ar) opt with
                  | Some err => Err (Field ar +:+ " validate failed, " +:+ err)
                  | None => Ok tt
                  end) <> Panic) as Hthen.
  { intros [[] | |] Hx; simpl; try congruence.
    destruct (Operator_ValidateValue _ _ _); discriminate. }
  apply Hthen.
  destruct opt as [o |]; [| discriminate].
  destruct (bool_decide _); [| discriminate].
  destruct (RuleFields o !! Field ar) as [typ |]; [| discriminate].
  pose proof (validateFieldValue_no_panic (Value ar) typ Hfree) as Hv.
  destruct (validateFieldValue (Value ar) typ); congruence.
Qed.

Lemma validateRules_no_panic (validate : RuleFactory -> outcome unit)
    (rules : list RuleFactory) :
  Forall (fun rule => validate rule <> Panic) rules ->
  validateRules validate rules <> Panic.
Proof.
  induction 1 as [| rule rules Hrule _ IH]; simpl; [discriminate |].
  destruct (validate rule) as [[] | |]; simpl; congruence.
Qed.

Lemma childOptOf_no_panic (opt : option ExprOption) : childOptOf opt <> Panic.
Proof.
  unfold childOptOf. destruct opt as [o |]; [| discriminate].
  destruct (0 <? MaxRulesDepth o)%N; [| discriminate].
  destruct (MaxRulesDepth o =? 1)%N; discriminate.
Qed.

(** X8: on a tree without a nil rule, validation panics only over a nil
    inside a slice: when the atom rules of the tree, along the rules of
    its combined rules, have values without a nil element, [Validate]
    returns, with or without an error, under any options. *)
Theorem RuleFactory_Validate_no_panic (r : RuleFactory) :
  RuleFactory_nilFree r = true ->
  forall opt, RuleFactory_Validate r opt <> Panic.
Proof.
  induction r as [ar | condition rules IH] using RuleFactory_rules_ind;
    intros Hfree opt.
  - apply AtomRule_Validate_no_panic. exact Hfree.
  - change (RuleFactory_Validate (RCombined (mkCombinedRule condition rules)) opt)
      with (CombinedRule_Validate (mkCombinedRule condition rules) opt).
    rewrite CombinedRule_Validate_eq.
    pose proof (checkRules_no_panic (mkCombinedRule condition rules) opt).
    destruct (CombinedRule_checkRules _ _) as [[] | |]; simpl; try congruence.
    pose proof (childOptOf_no_panic opt).
    destruct (childOptOf opt) as [childOpt | |]; simpl; try congruence.
    apply validateRules_no_panic.
    simpl in Hfree. rewrite forallb_forall in Hfree.
    rewrite Forall_forall in *. intros rule Hrule.
    apply IH; [exact Hrule |]. apply Hfree, list_elem_of_In, Hrule.
Qed.

(** ** Decimal indices *)

Lemma of_uint_acc_ge (d : Decimal.uint) :
  forall acc, (acc <= Pos.of_uint_acc d acc)%positive.
Proof.
  induction d; intros acc; simpl;
    try (etransitivity; [| apply IHd]); lia.
Qed.

Lemma parseDigits_step (c : ascii) (rest : string) (n d : Z) :
  digitOf c = Some d ->
  (0 <= n)%Z -> (n * 10 + d <= 2 ^ 63)%Z ->
  (0 <= d)%Z ->
  parseDigits (String c rest) n = parseDigits rest (n * 10 + d).
Proof.
  intros Hc Hn Hbound Hd. simpl parseDigits. rewrite Hc.
  destruct (Z.leb_spec 1844674407370955162 n); [lia |].
  destruct (Z.ltb_spec (2 ^ 64 - 1) (n * 10 + d)); [lia | reflexivity].
Qed.

Ltac stepDigit :=
  match goal with
  | |- parseDigits (String ?c _) _ = _ =>
      let r := eval vm_compute in (digitOf c) in
      match r with
      | Some ?v => rewrite (parseDigits_step c _ _ v eq_refl)
      end
  end.

Lemma parseDigits_acc (d : Decimal.uint) :
  forall acc,
    (Z.pos (Pos.of_uint_acc d acc) <= 2 ^ 63)%Z ->
    parseDigits (NilEmpty.string_of_uint d) (Z.pos acc) =
      inl (Z.pos (Pos.of_uint_acc d acc)).
Proof.
  induction d; intros acc Hbound; simpl NilEmpty.string_of_uint;
    simpl Pos.of_uint_acc in *; [reflexivity | ..];
    (stepDigit;
     [ rewrite <- IHd by exact Hbound; f_equal; lia
     | lia
     | pose proof (of_uint_acc_ge d) as Hge;
       match type of Hbound with
       | (Z.pos (Pos.of_uint_acc d ?a) <= _)%Z => specialize (Hge a)
       end; lia
     | lia ]).
Qed.

Lemma parseDigits_zero (d : Decimal.uint) :
  (Z.of_N (Pos.of_uint d) <= 2 ^ 63)%Z ->
  parseDigits (NilEmpty.string_of_uint d) 0 = inl (Z.of_N (Pos.of_uint d)).
Proof.
  induction d; intros Hbound; simpl NilEmpty.string_of_uint;
    simpl Pos.of_uint in *; [reflexivity | ..];
    (stepDigit;
     [ first [ apply IHd; exact Hbound
             | apply (parseDigits_acc d _ Hbound) ]
     | lia
     | match type of Hbound with
       | (Z.of_N (N.pos (Pos.of_uint_acc d ?a)) <= _)%Z =>
           pose proof (of_uint_acc_ge d a); lia
       | _ => lia
       end
     | lia ]).
Qed.

Lemma Atoi_unsigned (c : ascii) (rest : string) (d : Z) :
  digitOf c = Some d ->
  Atoi (String c rest) =
    match parseDigits (String c rest) 0 with
    | inr e => inr e
    | inl un => if (2 ^ 63 <=? un)%Z then inr ErrRange else inl un
    end.
Proof.
  intros Hc.
  assert (c <> "-"%char) as Hminus by (intros ->; discriminate).
  assert (c <> "+"%char) as Hplus by (intros ->; discriminate).
  unfold Atoi.
  rewrite (bool_decide_eq_false_2 _ Hminus), (bool_decide_eq_false_2 _ Hplus).
  reflexivity.
Qed.

Lemma Atoi_negative (c : ascii) (rest : string) :
  Atoi (String "-" (String c rest)) =
    match parseDigits (String c rest) 0 with
    | inr e => inr e
    | inl un => if (2 ^ 63 <? un)%Z then inr ErrRange else inl (- un)%Z
    end.
Proof. reflexivity. Qed.

Lemma string_of_uint_digit (d : Decimal.uint) :
  d <> Decimal.Nil ->
  exists c rest v,
    NilZero.string_of_uint d = String c rest /\
    NilEmpty.string_of_uint d = String c rest /\ digitOf c = Some v.
Proof.
  destruct d; intros Hd; [congruence | ..];
    do 3 eexists; (split; [reflexivity | split; [reflexivity |]]);
    vm_compute; reflexivity.
Qed.

Lemma Atoi_fmt_d (z : Z) :
  (- 2 ^ 63 <= z < 2 ^ 63)%Z -> Atoi (fmt_d z) = inl z.
Proof.
  intros Hz. unfold fmt_d. destruct z as [| p | p]; simpl Z.to_int.
  - reflexivity.
  - destruct (string_of_uint_digit (Pos.to_uint p) (Unsigned.to_uint_nonnil p))
      as (c & rest & v & Hs & Hs' & Hc).
    simpl NilZero.string_of_int. rewrite Hs, (Atoi_unsigned c rest v Hc).
    rewrite <- Hs', parseDigits_zero; rewrite Unsigned.of_to; simpl Z.of_N; [| lia].
    destruct (Z.leb_spec (2 ^ 63) (Z.pos p)); [lia | reflexivity].
  - destruct (string_of_uint_digit (Pos.to_uint p) (Unsigned.to_uint_nonnil p))
      as (c & rest & v & Hs & Hs' & Hc).
    simpl NilZero.string_of_int. rewrite Hs, Atoi_negative.
    rewrite <- Hs', parseDigits_zero; rewrite Unsigned.of_to; simpl Z.of_N; [| lia].
    destruct (Z.ltb_spec (2 ^ 63) (Z.pos p)); [lia | reflexivity].
Qed.

(** X9: under an array parent, every index from 1 up to the largest
    [int], written in decimal, compiles to the element path parent, dot,
    index; zero and every negative [int] written in decimal are rejected
    as invalid indices. *)
Theorem AtomRule_ToMgo_decimal_index (n : Z) (op : OpFactory) (v : AnyValue)
    (opt : RuleOption) (rest : list (option RuleOption)) :
  enumor_Array <> enumor_Object ->
  Parent opt <> "" ->
  ParentType opt = enumor_Array ->
  fmt_d n <> FilterArrayElement ->
  (- 2 ^ 63 <= n < 2 ^ 63)%Z ->
  AtomRule_ToMgo (mkAtomRule (fmt_d n) op v) (Some opt :: rest) =
    if (0 <? n)%Z then Operator_ToMgo op (Parent opt +:+ "." +:+ fmt_d n) v
    else Err ("filter array index " +:+ fmt_d n +:+ " is invalid").
Proof.
  intros Hne Hparent Htype Hfield Hn. unfold AtomRule_ToMgo. simpl.
  rewrite (bool_decide_eq_false_2 _ Hparent), Htype.
  rewrite (bool_decide_eq_false_2 _ Hne), (bool_decide_eq_true_2 _ eq_refl).
  rewrite (bool_decide_eq_false_2 _ Hfield), (Atoi_fmt_d n Hn).
  destruct (Z.leb_spec n 0), (Z.ltb_spec 0 n); try lia; reflexivity.
Qed.

(** ** Compilation and the path context *)

Lemma AtomRule_ToMgo_context (ar : AtomRule) (opts opts' : list (option RuleOption)) :
  contextOf opts = contextOf opts' ->
  AtomRule_ToMgo ar opts = AtomRule_ToMgo ar opts'.
Proof.
  unfold AtomRule_ToMgo.
  destruct opts as [| [o |] ?], opts' as [| [o' |] ?]; simpl;
    intros Hctx; try discriminate; try reflexivity.
  injection Hctx as <-. reflexivity.
Qed.

Lemma rulesToMgo_ext (f g : RuleFactory -> outcome MgoMap)
    (rules : list RuleFactory) :
  Forall (fun rule => f rule = g rule) rules ->
  forall idx acc, rulesToMgo f rules idx acc = rulesToMgo g rules idx acc.
Proof.
  induction 1 as [| rule rules Hrule _ IH]; intros idx acc; simpl.
  - reflexivity.
  - rewrite Hrule. destruct (g rule); [apply IH | reflexivity | reflexivity].
Qed.

(** X10: of the options given to [ToMgo] only the first counts, for a
    whole tree: two lists of options with the same first option, or both
    without one (empty, or starting with nil), compile a rule alike. *)
Theorem RuleFactory_ToMgo_context (r : RuleFactory)
    (opts opts' : list (option RuleOption)) :
  contextOf opts = contextOf opts' ->
  RuleFactory_ToMgo r opts = RuleFactory_ToMgo r opts'.
Proof.
  intros Hctx.
  induction r as [ar | condition rules IH] using RuleFactory_rules_ind.
  - apply AtomRule_ToMgo_context, Hctx.
  - change (CombinedRule_ToMgo (mkCombinedRule condition rules) opts =
            CombinedRule_ToMgo (mkCombinedRule condition rules) opts').
    rewrite !CombinedRule_ToMgo_eq. simpl.
    rewrite (rulesToMgo_ext _ (fun rule => RuleFactory_ToMgo rule opts') rules IH).
    reflexivity.
Qed.

Lemma rulesToMgo_ok_inv (toMgo : RuleFactory -> outcome MgoMap)
    (rules : list RuleFactory) :
  forall idx acc filters,
    rulesToMgo toMgo rules idx acc = Ok filters ->
    exists compiled,
      filters = acc ++ compiled /\
      Forall2 (fun rule filter => toMgo rule = Ok filter) rules compiled.
Proof.
  induction rules as [| rule rules IH]; intros idx acc filters; simpl.
  - intros [= <-]. exists []. rewrite app_nil_r. split; [reflexivity | constructor].
  - destruct (toMgo rule) as [filter | |] eqn:Hrule; try discriminate.
    intros Hrest. apply IH in Hrest as (compiled & -> & Hall).
    exists (filter :: compiled). rewrite <- app_assoc.
    split; [reflexivity | constructor; assumption].
Qed.

(** X11: when a combined rule compiles, its condition is [Or] or [And],
    it has at least one rule, each rule compiled under the same options,
    and the result is the single key of the condition over the compiled
    rules in their order ([Or] taking precedence in the switch). *)
Theorem CombinedRule_ToMgo_ok_inv (cr : CombinedRule)
    (opt : list (option RuleOption)) (m : MgoMap) :
  CombinedRule_ToMgo cr opt = Ok m ->
  LogicOperator_Validate (Condition cr) = None /\
  Rules cr <> [] /\
  exists filters,
    Forall2 (fun rule filter => RuleFactory_ToMgo rule opt = Ok filter)
      (Rules cr) filters /\
    (Condition cr = Or /\ m = [(BKDBOR, filtersValue filters)] \/
     Condition cr <> Or /\ Condition cr = And /\
     m = [(BKDBAND, filtersValue filters)]).
Proof.
  rewrite CombinedRule_ToMgo_eq. intros Hok.
  destruct (LogicOperator_Validate (Condition cr)); [discriminate |].
  simpl in Hok. split; [reflexivity |].
  destruct (bool_decide (length (Rules cr) = 0)) eqn:Hlen; [discriminate |].
  apply bool_decide_eq_false in Hlen.
  split; [intros Hnil; rewrite Hnil in Hlen; apply Hlen; reflexivity |].
  destruct (rulesToMgo _ _ _ _) as [filters | |] eqn:Hrules; try discriminate.
  apply rulesToMgo_ok_inv in Hrules as (compiled & -> & Hall).
  exists compiled. split; [exact Hall |]. simpl in Hok.
  destruct (bool_decide (Condition cr = Or)) eqn:Hor.
  - apply bool_decide_eq_true in Hor. injection Hok as <-. left. auto.
  - apply bool_decide_eq_false in Hor.
    destruct (bool_decide (Condition cr = And)) eqn:Hand; [| discriminate].
    apply bool_decide_eq_true in Hand. injection Hok as <-. right. auto.
Qed.

(** X12: an atom rule that compiles under a path context compiles
    against a path that starts with the parent, never against its bare
    field: the parent is not empty, and the path is the parent itself
    (array parent, any-element field) or parent, dot, field (object
    parent, or array parent and a field that parses to an index above
    zero). *)
Theorem AtomRule_ToMgo_ok_inv (ar : AtomRule) (opt : RuleOption)
    (rest : list (option RuleOption)) (m : MgoMap) :
  AtomRule_ToMgo ar (Some opt :: rest) = Ok m ->
  Parent opt <> "" /\
  ((ParentType opt = enumor_Array /\ Field ar = FilterArrayElement /\
    Operator_ToMgo (Operator ar) (Parent opt) (Value ar) = Ok m) \/
   ((ParentType opt = enumor_Object \/
     ParentType opt = enumor_Array /\
     exists index, Atoi (Field ar) = inl index /\ (0 < index)%Z) /\
    Operator_ToMgo (Operator ar) (Parent opt +:+ "." +:+ Field ar) (Value ar) =
      Ok m)).
Proof.
  unfold AtomRule_ToMgo. intros Hok.
  destruct (bool_decide (Parent opt = "")) eqn:Hparent; [discriminate |].
  apply bool_decide_eq_false in Hparent. split; [exact Hparent |].
  destruct (bool_decide (ParentType opt = enumor_Object)) eqn:Hobj.
  { apply bool_decide_eq_true in Hobj. right. auto. }
  destruct (bool_decide (ParentType opt = enumor_Array)) eqn:Harr;
    [| discriminate].
  apply bool_decide_eq_true in Harr.
  destruct (bool_decide (Field ar = FilterArrayElement)) eqn:Hany.
  { apply bool_decide_eq_true in Hany. left. auto. }
  destruct (Atoi (Field ar)) as [index | e]; [| discriminate].
  destruct (Z.leb_spec index 0); [discriminate |].
  right. split; [right; eauto | exact Hok].
Qed.

(** ** What a valid atom rule looks like *)

Lemma seq_ok_iff (x y : outcome unit) :
  (x ;; y) = Ok tt <-> x = Ok tt /\ y = Ok tt.
Proof.
  destruct x as [[] | |]; simpl; split; try tauto; try discriminate;
    intros [? _]; discriminate.
Qed.

Lemma returnIf_ok (e : error) : returnIf e = Ok tt <-> e = None.
Proof. destruct e; simpl; split; congruence. Qed.

Lemma isNil_false (v : AnyValue) : isNil v = false <-> v <> VNil.
Proof. destruct v; simpl; split; congruence. Qed.

(** X14: [Validate] accepts an atom rule exactly when its field is not
    empty, its operator is one the catalog accepts, its value is not
    nil, its field is declared and its value valid against the declared
    type if the options declare fields at all, and the operator accepts
    the value. *)
Theorem AtomRule_Validate_ok_iff (ar : AtomRule) (opt : option ExprOption) :
  AtomRule_Validate ar opt = Ok tt <->
  Field ar <> "" /\
  OpFactory_Validate (Operator ar) = None /\
  Value ar <> VNil /\
  (forall o, opt = Some o -> 0 < size (RuleFields o) ->
     exists typ, RuleFields o !! Field ar = Some typ /\
                 validateFieldValue (Value ar) typ = Ok tt) /\
  Operator_ValidateValue (Operator ar) (Value ar) opt = None.
Proof.
  unfold AtomRule_Validate.
  rewrite <- isNil_false.
  destruct (bool_decide (Field ar = "")) eqn:Hfield;
    [apply bool_decide_eq_true in Hfield; split; [discriminate | tauto] |].
  apply bool_decide_eq_false in Hfield.
  rewrite seq_ok_iff, returnIf_ok.
  destruct (isNil (Value ar));
    [split; [intros [_ ?]; discriminate | intros (_ & _ & ? & _); discriminate] |].
  rewrite seq_ok_iff.
  assert ((match Operator_ValidateValue (Operator ar) (Value ar) opt with
           | Some err => Err (Field ar +:+ " validate failed, " +:+ err)
           | None => Ok tt
           end = Ok tt) <->
          Operator_ValidateValue (Operator ar) (Value ar) opt = None) as ->.
  { destruct (Operator_ValidateValue _ _ _); split; congruence. }
  assert ((match opt with
           | Some o =>
               if bool_decide (0 < size (RuleFields o)) then
                 match RuleFields o !! Field ar with
                 | None =>
                     Err ("rule field: " +:+ Field ar +:+
                          " is not exist in the expr option")
                 | Some typ =>
                     match validateFieldValue (Value ar) typ with
                     | Err err =>
                         Err ("invalid " +:+ Field ar +:+ "'s value, " +:+ err)
                     | r => r
                     end
                 end
               else Ok tt
           | None => Ok tt
           end = Ok tt) <->
          (forall o, opt = Some o -> 0 < size (RuleFields o) ->
             exists typ, RuleFields o !! Field ar = Some typ /\
                         validateFieldValue (Value ar) typ = Ok tt)) as ->.
  { destruct opt as [o |]; [| split; [intros _ ? [=] | reflexivity]].
    destruct (bool_decide (0 < size (RuleFields o))) eqn:Hsize.
    - apply bool_decide_eq_true in Hsize. split.
      + intros Hok ? [= <-] _.
        destruct (RuleFields o !! Field ar) as [typ |]; [| discriminate].
        exists typ. split; [reflexivity |].
        destruct (validateFieldValue (Value ar) typ) as [[] | |];
          [reflexivity | discriminate | discriminate].
      + intros Hdecl. destruct (Hdecl o eq_refl Hsize) as (typ & -> & ->).
        reflexivity.
    - apply bool_decide_eq_false in Hsize.
      split; [intros _ ? [= <-] ?; contradiction | reflexivity]. }
  tauto.
Qed.

(** ** From validation to compilation *)

Lemma AtomRule_Validate_ok_operator (ar : AtomRule) (opt : option ExprOption) :
  AtomRule_Validate ar opt = Ok tt ->
  OpFactory_Validate (Operator ar) = None /\
  Operator_ValidateValue (Operator ar) (Value ar) opt = None.
Proof.
  unfold AtomRule_Validate. intros Hok.
  destruct (bool_decide (Field ar = "")); [discriminate |].
  destruct (OpFactory_Validate (Operator ar)); [discriminate |].
  simpl in Hok. split; [reflexivity |].
  destruct (isNil (Value ar)); [discriminate |].
  destruct (Operator_ValidateValue _ _ _); [| reflexivity].
  exfalso. revert Hok.
  match goal with |- (?x ;; _) = _ -> _ => destruct x as [[] | |] end;
    discriminate.
Qed.

Lemma Forall_compiled (opts : list (option RuleOption))
    (rules : list RuleFactory) :
  Forall (fun rule => exists m, RuleFactory_ToMgo rule opts = Ok m) rules ->
  exists filters,
    Forall2 (fun rule filter => RuleFactory_ToMgo rule opts = Ok filter)
      rules filters.
Proof.
  induction 1 as [| rule rules [m Hm] _ [filters IH]].
  - exists []. constructor.
  - exists (m :: filters). constructor; assumption.
Qed.

(** X15: validation is enough for compilation. With a catalog whose
    operators compile every value they accept, and a logic catalog that
    accepts no condition but [And] and [Or], every tree that [Validate]
    accepts, under whatever options, compiles without a path context. *)
Theorem Validate_then_ToMgo (r : RuleFactory) :
  (forall op field v opt,
     OpFactory_Validate op = None ->
     Operator_ValidateValue op v opt = None ->
     exists m, Operator_ToMgo op field v = Ok m) ->
  (forall condition,
     LogicOperator_Validate condition = None ->
     condition = And \/ condition = Or) ->
  forall opt,
    RuleFactory_Validate r opt = Ok tt ->
    exists m, RuleFactory_ToMgo r [] = Ok m.
Proof.
  intros Hcat Hlogic.
  induction r as [ar | condition rules IH] using RuleFactory_rules_ind;
    intros opt Hvalid.
  - apply AtomRule_Validate_ok_operator in Hvalid as [Hop Hvalue].
    exact (Hcat _ (Field ar) _ _ Hop Hvalue).
  - change (CombinedRule_Validate (mkCombinedRule condition rules) opt = Ok tt)
      in Hvalid.
    change (exists m, CombinedRule_ToMgo (mkCombinedRule condition rules) [] = Ok m).
    rewrite CombinedRule_Validate_eq in Hvalid.
    destruct (CombinedRule_checkRules _ opt) as [[] | |] eqn:Hself;
      try discriminate.
    apply checkRules_ok_inv in Hself as (Hcond & Hrules & _).
    simpl in Hvalid, Hcond, Hrules.
    destruct (childOptOf opt) as [childOpt | |]; try discriminate.
    simpl in Hvalid. apply validateRules_ok_inv in Hvalid.
    assert (Forall (fun rule => exists m, RuleFactory_ToMgo rule [] = Ok m) rules)
      as Hall.
    { rewrite Forall_forall in *. intros rule Hrule.
      apply (IH rule Hrule childOpt), Hvalid, Hrule. }
    apply Forall_compiled in Hall as [filters Hall].
    rewrite CombinedRule_ToMgo_eq. simpl. rewrite Hcond. simpl.
    assert (length rules <> 0) as Hlen
      by (destruct rules; [congruence | discriminate]).
    rewrite (bool_decide_eq_false_2 _ Hlen).
    rewrite (rulesToMgo_all_ok _ _ _ Hall). simpl.
    destruct (bool_decide (condition = Or)) eqn:Hor; [eauto |].
    apply bool_decide_eq_false in Hor.
    destruct (Hlogic condition Hcond) as [Hand | ?]; [| contradiction].
    rewrite (bool_decide_eq_true_2 _ Hand). eauto.
Qed.

(** ** Serialization of a combined rule *)

Lemma marshalRules_all_ok (rules : list RuleFactory) (raws : list (list byte)) :
  Forall2 (fun rule raw => bson_Marshal (BsonRuleFactory rule) = Ok raw)
    rules raws ->
  marshalRules rules = Ok raws.
Proof.
  induction 1 as [| rule raw rules raws Hrule _ IH]; simpl.
  - reflexivity.
  - rewrite Hrule. simpl. rewrite IH. reflexivity.
Qed.

Lemma marshalRules_first_error (rules : list RuleFactory) (i : nat)
    (rule : RuleFactory) (err : string) :
  rules !! i = Some rule ->
  (forall j before, j < i -> rules !! j = Some before ->
     exists raw, bson_Marshal (BsonRuleFactory before) = Ok raw) ->
  bson_Marshal (BsonRuleFactory rule) = Err err ->
  marshalRules rules = Err err.
Proof.
  revert i. induction rules as [| first rules IH]; intros i Hi Hbefore Herr.
  - discriminate.
  - destruct i as [| i]; simpl in *.
    + injection Hi as ->. rewrite Herr. reflexivity.
    + destruct (Hbefore 0 first) as [raw ->]; [lia | reflexivity |]. simpl.
      rewrite (IH i); [reflexivity | assumption | | assumption].
      intros j before Hj Hlook. apply (Hbefore (S j)); [lia | exact Hlook].
Qed.

(** X16: [MarshalBSON] of a combined rule encodes its rules one by one
    and then the condition with the encoded rules, in their order; when
    the encoding of a rule fails, the first such error is returned as it
    is and nothing more is encoded. *)
Theorem CombinedRule_MarshalBSON_rules (cr : CombinedRule) :
  (forall raws,
     Forall2 (fun rule raw => bson_Marshal (BsonRuleFactory rule) = Ok raw)
       (Rules cr) raws ->
     CombinedRule_MarshalBSON (Some cr) =
       bson_Marshal (BsonCombinedRuleBroker (Condition cr) raws)) /\
  (forall i rule err,
     Rules cr !! i = Some rule ->
     (forall j before, j < i -> Rules cr !! j = Some before ->
        exists raw, bson_Marshal (BsonRuleFactory before) = Ok raw) ->
     bson_Marshal (BsonRuleFactory rule) = Err err ->
     CombinedRule_MarshalBSON (Some cr) = Err err).
Proof.
  split.
  - intros raws Hall. simpl. rewrite (marshalRules_all_ok _ _ Hall).
    reflexivity.
  - intros i rule err Hi Hbefore Herr. simpl.
    rewrite (marshalRules_first_error _ i rule err Hi Hbefore Herr).
    reflexivity.
Qed.

End Properties.

(** * Properties of the decoders *)

Section DecodeProperties.
Context `{Collaborators} `{Decoders}.

Section RangeRawFacts.
Variable parse : list byte -> outcome RuleFactory.

Lemma parseRules_all_ok (rawRules : list (list byte)) (rules : list RuleFactory) :
  Forall2 (fun rawRule rule => parse rawRule = Ok rule) rawRules rules ->
  forall done pending,
    parseRules parse rawRules (length done)
      (done ++ replicate (length rawRules) None ++ pending) =
      (done ++ (Some <$> rules) ++ pending, Ok tt).
Proof.
  induction 1 as [| rawRule rule rawRules rules Hrule _ IH];
    intros done pending; simpl.
  - reflexivity.
  - rewrite Hrule, insert_app_r_alt by lia. rewrite Nat.sub_diag. simpl.
    specialize (IH (done ++ [Some rule]) pending).
    rewrite length_app, <- !app_assoc in IH. simpl in IH.
    rewrite Nat.add_1_r in IH. exact IH.
Qed.

Lemma parseRules_first_error (before after : list (list byte))
    (rawRule : list byte) (rules : list RuleFactory) (result : outcome RuleFactory) :
  Forall2 (fun rawRule rule => parse rawRule = Ok rule) before rules ->
  parse rawRule = result ->
  (forall rule, result <> Ok rule) ->
  forall done,
    parseRules parse (before ++ rawRule :: after) (length done)
      (done ++ replicate (length (before ++ rawRule :: after)) None) =
      (done ++ (Some <$> rules) ++ replicate (S (length after)) None,
       match result with
       | Err err =>
           Err (parseFailedAt (Z.of_nat (length done + length before))
                  rawRule err)
       | _ => Panic
       end).
Proof.
  induction 1 as [| first rule before rules Hfirst _ IH];
    intros Hresult Hbad done; simpl.
  - rewrite Hresult, Nat.add_0_r.
    destruct result as [rule | err |]; [destruct (Hbad rule eq_refl) | ..];
      reflexivity.
  - rewrite Hfirst, insert_app_r_alt by lia. rewrite Nat.sub_diag. simpl.
    specialize (IH Hresult Hbad (done ++ [Some rule])).
    rewrite length_app, <- !app_assoc in IH. simpl in IH.
    rewrite Nat.add_1_r in IH. rewrite IH.
    replace (S (length done) + length before)
      with (length done + S (length before)) by lia.
    reflexivity.
Qed.
End RangeRawFacts.

(** X17: decoding a combined rule whose raw rules all parse leaves the
    receiver with the decoded condition and the parsed rules, as many as
    there were raw rules and in their order, whatever it held before;
    for the text and for the binary encoding. *)
Theorem CombinedRule_Unmarshal_ok (cr : CombinedRuleSlots) (raw : list byte)
    (rules : list RuleFactory) :
  (forall broker,
     json_Unmarshal_combinedBroker raw = Ok broker ->
     Forall2 (fun rawRule rule => parseJsonRule rawRule = Ok rule)
       (jsonCombined_Rules broker) rules ->
     CombinedRule_UnmarshalJSON cr raw =
       (slotsOf (mkCombinedRule (jsonCombined_Condition broker) rules), Ok tt)) /\
  (forall broker,
     bson_Unmarshal_combinedBroker raw = Ok broker ->
     Forall2 (fun rawRule rule => parseBsonRule rawRule = Ok rule)
       (bsonCombined_Rules broker) rules ->
     CombinedRule_UnmarshalBSON cr raw =
       (slotsOf (mkCombinedRule (bsonCombined_Condition broker) rules), Ok tt)).
Proof.
  split; intros broker Hbroker Hall.
  - unfold CombinedRule_UnmarshalJSON. rewrite Hbroker.
    pose proof (parseRules_all_ok _ _ _ Hall [] []) as Hloop.
    simpl in Hloop. rewrite !app_nil_r in Hloop. rewrite Hloop. reflexivity.
  - unfold CombinedRule_UnmarshalBSON. rewrite Hbroker.
    pose proof (parseRules_all_ok _ _ _ Hall [] []) as Hloop.
    simpl in Hloop. rewrite !app_nil_r in Hloop. rewrite Hloop. reflexivity.
Qed.

(** X18: when a raw rule of a combined rule does not parse, the decoder
    returns the error of the first such rule, wrapped with its position
    and its raw text; the receiver then holds the decoded condition, the
    rules parsed before that position and nil from there on. A failure
    to decode the combined rule itself leaves the receiver as it was. For
    the text and for the binary encoding. *)
Theorem CombinedRule_Unmarshal_error (cr : CombinedRuleSlots) (raw : list byte) :
  (forall err,
     json_Unmarshal_combinedBroker raw = Err err ->
     CombinedRule_UnmarshalJSON cr raw =
       (cr, Err ("unmarshal into combined rule failed, err: " +:+ err))) /\
  (forall broker before rawRule after rules err,
     json_Unmarshal_combinedBroker raw = Ok broker ->
     jsonCombined_Rules broker = before ++ rawRule :: after ->
     Forall2 (fun rawRule rule => parseJsonRule rawRule = Ok rule) before rules ->
     parseJsonRule rawRule = Err err ->
     CombinedRule_UnmarshalJSON cr raw =
       ({| slots_Condition := jsonCombined_Condition broker;
           slots_Rules := (Some <$> rules) ++ replicate (S (length after)) None |},
        Err (parseFailedAt (Z.of_nat (length before)) rawRule err))) /\
  (forall err,
     bson_Unmarshal_combinedBroker raw = Err err ->
     CombinedRule_UnmarshalBSON cr raw =
       (cr, Err ("unmarshal into combined rule failed, err: " +:+ err))) /\
  (forall broker before rawRule after rules err,
     bson_Unmarshal_combinedBroker raw = Ok broker ->
     bsonCombined_Rules broker = before ++ rawRule :: after ->
     Forall2 (fun rawRule rule => parseBsonRule rawRule = Ok rule) before rules ->
     parseBsonRule rawRule = Err err ->
     CombinedRule_UnmarshalBSON cr raw =
       ({| slots_Condition := bsonCombined_Condition broker;
           slots_Rules := (Some <$> rules) ++ replicate (S (length after)) None |},
        Err (parseFailedAt (Z.of_nat (length before)) rawRule err))).
Proof.
  split; [| split; [| split]].
  - intros err Hbroker. unfold CombinedRule_UnmarshalJSON. rewrite Hbroker.
    reflexivity.
  - intros broker before rawRule after rules err Hbroker Hsplit Hall Herr.
    unfold CombinedRule_UnmarshalJSON. rewrite Hbroker, Hsplit.
    pose proof (parseRules_first_error _ before after rawRule rules (Err err)
                  Hall Herr ltac:(discriminate) []) as Hloop.
    simpl in Hloop. rewrite Hloop. reflexivity.
  - intros err Hbroker. unfold CombinedRule_UnmarshalBSON. rewrite Hbroker.
    reflexivity.
  - intros broker before rawRule after rules err Hbroker Hsplit Hall Herr.
    unfold CombinedRule_UnmarshalBSON. rewrite Hbroker, Hsplit.
    pose proof (parseRules_first_error _ before after rawRule rules (Err err)
                  Hall Herr ltac:(discriminate) []) as Hloop.
    simpl in Hloop. rewrite Hloop. reflexivity.
Qed.

Lemma storeValue_ok_inv (ar ar' : AtomRule) (decoded : outcome AnyValue) :
  storeValue ar decoded = (ar', Ok tt) ->
  exists v, decoded = Ok v /\ ar' = mkAtomRule (Field ar) (Operator ar) v.
Proof.
  destruct decoded as [v | |]; simpl; intros [= <-]. eauto.
Qed.

Lemma storeValue_failed (ar ar' : AtomRule) (decoded : outcome AnyValue)
    (result : outcome unit) :
  storeValue ar decoded = (ar', result) -> result <> Ok tt -> ar' = ar.
Proof.
  destruct decoded as [v | |]; simpl; intros [= <- <-]; congruence.
Qed.

(** X19: after a successful decoding of an atom rule, for the text and
    for the binary encoding, the rule has the decoded field and
    operator; its value is a slice when the operator is [In] or [NotIn],
    and otherwise, when the operator is structural, the rule parsed from
    the raw value, so that its fields are those of that rule, prefixed. *)
Theorem AtomRule_Unmarshal_ok_inv (ar ar' : AtomRule) (raw : list byte) :
  (AtomRule_UnmarshalJSON ar raw = (ar', Ok tt) ->
   exists br,
     json_Unmarshal_atomBroker raw = Ok br /\
     Field ar' = jsonAtom_Field br /\ Operator ar' = jsonAtom_Operator br /\
     (isInOperator (Operator ar') = true ->
      exists array, Value ar' = VSlice array) /\
     (isInOperator (Operator ar') = false ->
      isFilterOperator (Operator ar') = true ->
      exists subRule,
        parseJsonRule (jsonAtom_Value br) = Ok subRule /\
        Value ar' = VRule subRule /\
        AtomRule_RuleFields ar' =
          (fun p => Field ar' +:+ "." +:+ p) <$> RuleFactory_RuleFields subRule)) /\
  (AtomRule_UnmarshalBSON ar raw = (ar', Ok tt) ->
   exists br,
     bson_Unmarshal_atomBroker raw = Ok br /\
     Field ar' = bsonAtom_Field br /\ Operator ar' = bsonAtom_Operator br /\
     (isInOperator (Operator ar') = true ->
      exists array, Value ar' = VSlice array) /\
     (isInOperator (Operator ar') = false ->
      isFilterOperator (Operator ar') = true ->
      exists document subRule,
        RawValue_Document (bsonAtom_Value br) = Some document /\
        parseBsonRule document = Ok subRule /\
        Value ar' = VRule subRule /\
        AtomRule_RuleFields ar' =
          (fun p => Field ar' +:+ "." +:+ p) <$> RuleFactory_RuleFields subRule)).
Proof.
  split.
  - unfold AtomRule_UnmarshalJSON.
    destruct (json_Unmarshal_atomBroker raw) as [br | |]; try discriminate.
    intros Hok. exists br. split; [reflexivity |].
    destruct (isInOperator (jsonAtom_Operator br)) eqn:Hin;
      [| destruct (isFilterOperator (jsonAtom_Operator br)) eqn:Hfilter];
      apply storeValue_ok_inv in Hok as (v & Hv & ->); simpl;
      rewrite ?Hin, ?Hfilter;
      (split; [reflexivity |]); (split; [reflexivity |]);
      (split; [try discriminate | try discriminate]).
    + intros _.
      destruct (json_Unmarshal_slice _) as [array | |]; try discriminate.
      injection Hv as <-. eauto.
    + intros _ _.
      destruct (parseJsonRule _) as [subRule | |]; try discriminate.
      injection Hv as <-. eauto.
  - unfold AtomRule_UnmarshalBSON.
    destruct (bson_Unmarshal_atomBroker raw) as [br | |]; try discriminate.
    intros Hok. exists br. split; [reflexivity |].
    destruct (isInOperator (bsonAtom_Operator br)) eqn:Hin;
      [| destruct (isFilterOperator (bsonAtom_Operator br)) eqn:Hfilter];
      apply storeValue_ok_inv in Hok as (v & Hv & ->); simpl;
      rewrite ?Hin, ?Hfilter;
      (split; [reflexivity |]); (split; [reflexivity |]);
      (split; [try discriminate | try discriminate]).
    + intros _.
      destruct (RawValue_Unmarshal_slice _) as [array | |]; try discriminate.
      injection Hv as <-. eauto.
    + intros _ _.
      destruct (RawValue_Document _) as [document |]; try discriminate.
      destruct (parseBsonRule _) as [subRule | |] eqn:Hparse; try discriminate.
      injection Hv as <-. eauto 10.
Qed.

(** X20: a decoding of an atom rule that does not succeed never touches
    the value of the receiver: if the rule itself could not be decoded
    the receiver is as it was, and if only its value could not, the
    receiver has the new field and operator with its old value. *)
Theorem AtomRule_Unmarshal_failed (ar ar' : AtomRule) (raw : list byte)
    (result : outcome unit) :
  (AtomRule_UnmarshalJSON ar raw = (ar', result) -> result <> Ok tt ->
   Value ar' = Value ar /\
   match json_Unmarshal_atomBroker raw with
   | Ok br => Field ar' = jsonAtom_Field br /\ Operator ar' = jsonAtom_Operator br
   | _ => ar' = ar
   end) /\
  (AtomRule_UnmarshalBSON ar raw = (ar', result) -> result <> Ok tt ->
   Value ar' = Value ar /\
   match bson_Unmarshal_atomBroker raw with
   | Ok br => Field ar' = bsonAtom_Field br /\ Operator ar' = bsonAtom_Operator br
   | _ => ar' = ar
   end).
Proof.
  split.
  - unfold AtomRule_UnmarshalJSON.
    destruct (json_Unmarshal_atomBroker raw) as [br | |];
      [| intros [= <- _]; auto ..].
    intros Hres Hbad.
    assert (ar' = mkAtomRule (jsonAtom_Field br) (jsonAtom_Operator br) (Value ar))
      as ->; [| auto].
    repeat (destruct (_ : bool) in Hres);
      exact (storeValue_failed _ _ _ _ Hres Hbad).
  - unfold AtomRule_UnmarshalBSON.
    destruct (bson_Unmarshal_atomBroker raw) as [br | |];
      [| intros [= <- _]; auto ..].
    intros Hres Hbad.
    assert (ar' = mkAtomRule (bsonAtom_Field br) (bsonAtom_Operator br) (Value ar))
      as ->; [| auto].
    repeat (destruct (_ : bool) in Hres);
      exact (storeValue_failed _ _ _ _ Hres Hbad).
Qed.

End DecodeProperties.

(** * The properties on concrete rules *)

Import Sample.

(** C1: the options have a string field [a] and no depth. The atom rule
    [a = 1] alone is invalid under them, but valid inside a combined rule:
    the combined rule validates its rules with nil options. *)
Theorem C1_child_options_dropped :
  MaxRulesDepth (policy 0 0) = 0%N /\
  RuleFactory_Validate aIsOne (Some (policy 0 0)) =
    Err "invalid a's value, value should be a string" /\
  childOptOf (Some (policy 0 0)) = Ok None /\
  CombinedRule_Validate (mkCombinedRule "AND" [aIsOne]) (Some (policy 0 0)) =
    Ok tt /\
  CombinedRule_Validate (mkCombinedRule "AND" [aIsOne]) (Some (policy 0 2)) =
    Err "invalid a's value, value should be a string".
Proof. repeat split; vm_compute; reflexivity. Qed.

(** C2: [Validate] of a combined rule returns the error of its first
    rule as it is, not wrapped with the position. *)
Lemma C2_Validate_error_not_wrapped :
  Rules (mkCombinedRule "AND" [noField]) !! 0 = Some noField /\
  RuleFactory_Validate noField None = Err "field is empty" /\
  CombinedRule_Validate (mkCombinedRule "AND" [noField]) None =
    Err "field is empty" /\
  CombinedRule_Validate (mkCombinedRule "AND" [noField]) None <>
    Err (invalidRuleAt 0 "field is empty").
Proof. repeat split; vm_compute; congruence. Qed.

Lemma C2_first_failing_rule_witness :
  Rules firstThenZero !! 1 = Some (RAtom zeroTag) /\
  CombinedRule_ToMgo firstThenZero [Some tagsArray] =
    Err "rules[1] is invalid, err: filter array index 0 is invalid" /\
  CombinedRule_Validate firstThenZero None = Err "rule value can not be nil".
Proof.
  split; [reflexivity |]. split.
  - apply (proj1 (C2_first_failing_rule firstThenZero 1 (RAtom zeroTag)
                    "filter array index 0 is invalid" eq_refl)).
    + reflexivity.
    + intros [| j] rule Hj Hrule; [| lia].
      injection Hrule as <-. eexists. reflexivity.
    + reflexivity.
  - apply (proj2 (C2_first_failing_rule firstThenZero 1 (RAtom zeroTag)
                    "rule value can not be nil" eq_refl) None None).
    + vm_compute. reflexivity.
    + reflexivity.
    + intros [| j] rule Hj Hrule; [| lia].
      injection Hrule as <-. vm_compute. reflexivity.
    + vm_compute. reflexivity.
Defined.

(** C3: at depth 2 a combined rule inside a combined rule is rejected for
    its depth; the same rule is valid at depth 3. *)
Lemma C3_one_nesting_rejected_at_depth_2 :
  CombinedRule_Validate nestedOnce (Some (policy 0 2)) =
    Err "expression rules depth exceeds maximum" /\
  CombinedRule_Validate nestedOnce (Some (policy 0 3)) = Ok tt.
Proof. split; vm_compute; reflexivity. Qed.

Lemma C4_AtomRule_ToMgo_array_witness :
  (enumor_Array <> enumor_Object /\ Parent tagsArray <> "" /\
   ParentType tagsArray = enumor_Array) /\
  AtomRule_ToMgo anyTag [Some tagsArray] =
    Ok [("tags", VMap [("$eq", VString "x")])] /\
  AtomRule_ToMgo firstTag [Some tagsArray] =
    Ok [("tags.1", VMap [("$eq", VString "x")])] /\
  (exists msg, AtomRule_ToMgo zeroTag [Some tagsArray] = Err msg).
Proof.
  assert (enumor_Array <> enumor_Object) as Hne by discriminate.
  assert (Parent tagsArray <> "") as Hparent by discriminate.
  split; [repeat split; [exact Hne | exact Hparent] |].
  split; [| split].
  - apply (proj1 (C4_AtomRule_ToMgo_array anyTag tagsArray [] Hne Hparent eq_refl)).
    reflexivity.
  - apply (proj1 (proj2 (C4_AtomRule_ToMgo_array firstTag tagsArray []
                           Hne Hparent eq_refl) ltac:(discriminate)) 1%Z);
      [reflexivity | lia].
  - apply (proj1 (proj2 (proj2 (C4_AtomRule_ToMgo_array zeroTag tagsArray []
                           Hne Hparent eq_refl) ltac:(discriminate))) 0%Z);
      [reflexivity | lia].
Defined.

Lemma C5_CombinedRule_ToMgo_witness :
  CombinedRule_ToMgo ageOrName [] =
    Ok [("$or", VSlice [VMap [("age", VMap [("$gt", VNumber 18)])];
                        VMap [("name", VMap [("$eq", VString "Al")])]])].
Proof.
  destruct (C5_CombinedRule_ToMgo ageOrName []
              [[("age", VMap [("$gt", VNumber 18)])];
               [("name", VMap [("$eq", VString "Al")])]])
    as (_ & _ & Hor & _).
  - discriminate.
  - reflexivity.
  - reflexivity.
  - discriminate.
  - repeat constructor.
  - exact (Hor eq_refl).
Defined.

Lemma C7_RuleFields_nested_witness :
  (Operator addrRule = FilterObject \/ Operator addrRule = FilterArray) /\
  Value addrRule = VRule cityRule /\
  AtomRule_RuleFields addrRule = ["addr.city"].
Proof.
  split; [left; reflexivity |]. split; [reflexivity |].
  exact (C7_RuleFields_nested addrRule cityRule (or_introl eq_refl) eq_refl).
Defined.

Lemma C8_AtomRule_ToMgo_no_context_witness :
  AtomRule_ToMgo firstTag [] = Ok [("1", VMap [("$eq", VString "x")])] /\
  AtomRule_ToMgo firstTag [None] = Ok [("1", VMap [("$eq", VString "x")])].
Proof.
  split.
  - exact (C8_AtomRule_ToMgo_no_context firstTag [] (or_introl eq_refl)).
  - exact (C8_AtomRule_ToMgo_no_context firstTag [None]
             (or_intror (ex_intro _ [] eq_refl))).
Defined.


(** C10: a structural atom rule over a combined rule without rules
    reports no field at all. *)
Lemma C10_RuleFields_can_be_empty :
  Operator addrNoRules = FilterObject /\ AtomRule_RuleFields addrNoRules = [].
Proof. split; reflexivity. Qed.

(** The limit on the number of rules: with a limit of 2, three rules are
    too many; without rules, or with 51 of them under the default limit
    of 50, validation fails as well. *)
Example Validate_three_rules_limit_two :
  CombinedRule_Validate (mkCombinedRule "AND" [aIsX; aIsX; aIsX])
    (Some (policy 2 0)) =
    Err "rules elements number is overhead, it at most have 2 rules".
Proof. vm_compute. reflexivity. Qed.

Example Validate_no_rules :
  CombinedRule_Validate (mkCombinedRule "AND" []) None =
    Err "combined rules shouldn't be empty".
Proof. vm_compute. reflexivity. Qed.

Example Validate_default_limit :
  CombinedRule_Validate (mkCombinedRule "AND" (replicate 50 aIsX)) None = Ok tt /\
  CombinedRule_Validate (mkCombinedRule "AND" (replicate 51 aIsX)) None =
    Err "rules elements number is overhead, it at most have 50 rules".
Proof. split; vm_compute; reflexivity. Qed.

Example Atoi_examples :
  Atoi "1" = inl 1%Z /\ Atoi "+01" = inl 1%Z /\ Atoi "-1" = inl (-1)%Z /\
  Atoi "0" = inl 0%Z /\ Atoi "" = inr ErrSyntax /\ Atoi "-" = inr ErrSyntax /\
  Atoi "1a" = inr ErrSyntax /\ Atoi " 1" = inr ErrSyntax /\
  Atoi "9223372036854775807" = inl 9223372036854775807%Z /\
  Atoi "9223372036854775808" = inr ErrRange /\
  Atoi "-9223372036854775808" = inl (-9223372036854775808)%Z.
Proof. repeat split; vm_compute; reflexivity. Qed.

(** Array indices: [-1] parses but is not above zero, [x1] does not parse. *)
Example ToMgo_array_index_negative :
  AtomRule_ToMgo (mkAtomRule "-1" "equal" (VNumber 1)) [Some tagsArray] =
    Err "filter array index -1 is invalid".
Proof. vm_compute. reflexivity. Qed.

Example ToMgo_array_index_not_a_number :
  exists msg,
    AtomRule_ToMgo (mkAtomRule "x1" "equal" (VNumber 1)) [Some tagsArray] =
      Err msg.
Proof. eexists. vm_compute. reflexivity. Qed.

(** A nil element of a slice makes [validateFieldValue] panic. *)
Example Validate_nil_element_panics :
  AtomRule_Validate (mkAtomRule "a" "in" (VSlice [VString "x"; VNil]))
    (Some (policy 0 0)) = Panic.
Proof. vm_compute. reflexivity. Qed.

(** * The further properties on concrete rules *)

Lemma CombinedRule_Validate_ok_inv_witness :
  CombinedRule_Validate (mkCombinedRule "AND" [aIsX; aIsX]) (Some (policy 2 2)) =
    Ok tt /\
  exists childOpt,
    childOptOf (Some (policy 2 2)) = Ok childOpt /\
    Forall (fun rule => RuleFactory_Validate rule childOpt = Ok tt) [aIsX; aIsX].
Proof.
  split; [vm_compute; reflexivity |].
  apply (CombinedRule_Validate_ok_inv (mkCombinedRule "AND" [aIsX; aIsX])
           (Some (policy 2 2))).
  vm_compute. reflexivity.
Defined.

Lemma CombinedRule_Validate_undeclared_field_witness :
  exists msg,
    CombinedRule_Validate
      (mkCombinedRule "AND"
         [aIsX; RCombined (mkCombinedRule "OR" [RAtom (mkAtomRule "b" "equal" (VNumber 1))])])
      (Some (policy 0 0)) = Err msg.
Proof.
  apply (CombinedRule_Validate_undeclared_field _ (policy 0 0) "b").
  - vm_compute. lia.
  - vm_compute. right. left.
  - vm_compute. reflexivity.
Defined.

Lemma CombinedRule_Validate_no_field_witness :
  Rules (mkCombinedRule "AND" [RAtom addrNoRules]) <> [] /\
  exists msg,
    CombinedRule_Validate (mkCombinedRule "AND" [RAtom addrNoRules]) None =
      Err msg.
Proof.
  split; [discriminate |].
  apply (CombinedRule_Validate_no_field (mkCombinedRule "AND" [RAtom addrNoRules])).
  reflexivity.
Defined.

Lemma validateFieldValue_unsupported_witness :
  validateFieldValue (VSlice [VSlice []; VSlice []]) "enum" = Ok tt <->
  leavesAre (fun _ => false) (VSlice [VSlice []; VSlice []]) = true.
Proof.
  apply (validateFieldValue_unsupported (VSlice [VSlice []; VSlice []]) "enum");
    discriminate.
Defined.

Lemma RuleFactory_Validate_no_panic_witness :
  RuleFactory_nilFree (RCombined ageOrName) = true /\
  forall opt, RuleFactory_Validate (RCombined ageOrName) opt <> Panic.
Proof.
  split; [reflexivity |].
  apply (RuleFactory_Validate_no_panic (RCombined ageOrName)). reflexivity.
Defined.

Lemma Validate_bounds_levels_witness :
  RuleFactory_Validate (RCombined nestedOnce) (Some (policy 0 3)) = Ok tt /\
  (N.of_nat (RuleFactory_levels (RCombined nestedOnce)) <= 3)%N.
Proof.
  split; [vm_compute; reflexivity |].
  apply (Validate_bounds_levels (RCombined nestedOnce) (policy 0 3)).
  - reflexivity.
  - vm_compute. reflexivity.
Defined.

Lemma AtomRule_ToMgo_decimal_index_witness :
  AtomRule_ToMgo (mkAtomRule (fmt_d 3) "equal" (VString "x")) [Some tagsArray] =
    Ok [("tags.3", VMap [("$eq", VString "x")])] /\
  AtomRule_ToMgo (mkAtomRule (fmt_d (-2)) "equal" (VString "x")) [Some tagsArray] =
    Err "filter array index -2 is invalid".
Proof.
  split.
  - rewrite (AtomRule_ToMgo_decimal_index 3 "equal" (VString "x") tagsArray []);
      (discriminate || reflexivity || lia).
  - rewrite (AtomRule_ToMgo_decimal_index (-2) "equal" (VString "x") tagsArray []);
      (discriminate || reflexivity || lia).
Defined.

Lemma RuleFactory_ToMgo_context_witness :
  RuleFactory_ToMgo (RCombined firstThenZero) [Some tagsArray; None] =
    RuleFactory_ToMgo (RCombined firstThenZero) [Some tagsArray] /\
  RuleFactory_ToMgo (RCombined ageOrName) [None; Some tagsArray] =
    RuleFactory_ToMgo (RCombined ageOrName) [].
Proof.
  split; apply RuleFactory_ToMgo_context; reflexivity.
Defined.

Lemma CombinedRule_ToMgo_ok_inv_witness :
  exists filters,
    Forall2 (fun rule filter => RuleFactory_ToMgo rule [] = Ok filter)
      (Rules ageOrName) filters /\
    length filters = 2.
Proof.
  destruct (CombinedRule_ToMgo_ok_inv (H := collaborators) ageOrName []
              [("$or", VSlice [VMap [("age", VMap [("$gt", VNumber 18)])];
                               VMap [("name", VMap [("$eq", VString "Al")])]])]
              ltac:(vm_compute; reflexivity)) as (_ & _ & filters & Hall & _).
  exists filters. split; [exact Hall |].
  symmetry. exact (Forall2_length _ _ _ Hall).
Defined.

Lemma AtomRule_ToMgo_ok_inv_witness :
  AtomRule_ToMgo firstTag [Some tagsArray] =
    Ok [("tags.1", VMap [("$eq", VString "x")])] /\
  Parent tagsArray <> "".
Proof.
  split; [reflexivity |].
  exact (proj1 (AtomRule_ToMgo_ok_inv (H := collaborators) firstTag tagsArray []
                  [("tags.1", VMap [("$eq", VString "x")])]
                  ltac:(vm_compute; reflexivity))).
Defined.

Lemma Validate_then_ToMgo_witness :
  RuleFactory_Validate (RCombined ageOrName) None = Ok tt /\
  exists m, RuleFactory_ToMgo (RCombined ageOrName) [] = Ok m.
Proof.
  split; [vm_compute; reflexivity |].
  apply (Validate_then_ToMgo (RCombined ageOrName)) with (opt := None).
  - intros op field v opt _ _. eexists. reflexivity.
  - intros condition. simpl.
    destruct (bool_decide (condition = "AND")) eqn:Hand.
    + apply bool_decide_eq_true in Hand. auto.
    + destruct (bool_decide (condition = "OR")) eqn:Hor; [| discriminate].
      apply bool_decide_eq_true in Hor. auto.
  - vm_compute. reflexivity.
Defined.
